(** * nanobot HTTP channel: request/response correlation over the message bus

    A shallow embedding of [nanobot/channels/http.py] (class [HTTPChannel])
    together with the small part of asyncio it relies on.

    The program is single-threaded cooperative asyncio code.  Every coroutine
    is cut at its suspension points ([await] on something that is not ready);
    the code between two suspension points runs atomically and is one
    transition of the model:

    - [start], [stop] / [stop_resume]                        (lifecycle)
    - [send_message] / [wait_for_timeout] / [send_message_resume]
    - [_listen_outbound_step]                                (dispatcher task)
    - the consumer publishing on / reading from the bus, and clock ticks.

    Python objects that are shared by reference (futures, tasks) live in
    stores indexed by their allocation number; the correlation table maps a
    [thread_id] to such a reference, so aliasing is explicit.

    What is taken from asyncio's documented behaviour:
    - a future is pending, finished with a result, or cancelled; [set_result]
      on a future that is not pending raises InvalidStateError;
    - [wait_for fut timeout] (asyncio of Python 3.11) suspends the caller on a
      private waiter that the completion of [fut] or a timer releases.  The
      timer callback touches nothing but that waiter, so it is no transition
      of its own here.  When the released caller next runs and [fut] is done
      it returns the result, also when the deadline has passed meanwhile;
      when [fut] is still pending the caller cancels it, suspends once more
      and gets TimeoutError the next time it runs ([wait_for_timeout] is the
      slice that cancels);
    - the loop runs a timer as soon as its instant is less than one clock
      resolution ahead;
    - with [timeout <= 0] asyncio cancels [fut] inside the slice that makes
      the call; here this is [send_message] followed by [wait_for_timeout],
      which is enabled at once: the two slices may be separated by others,
      which adds interleavings and loses none;
    - [Task.cancel] makes CancelledError appear in the task's coroutine at
      the [await] it is suspended in (or at its start if it never ran), and
      awaiting a task that ended cancelled raises CancelledError.

    Assumptions on the surroundings:
    - publishing on the bus never suspends and never fails (the queues are
      unbounded);
    - the dispatcher always suspends in its get, even with an item queued;
      asyncio would go on at once, which is one of the interleavings here;
    - nobody cancels a [send_message] call from outside;
    - the float [timeout], the loop's clock and its resolution are
      rationals;
    - strings are the UTF-8 encodings of Python's strings. *)

From Stdlib Require Import QArith Lqa.
From stdpp Require Import gmap strings list fin_maps pretty.

(** ** Python values, exceptions, logging *)

(** The values a (dynamically typed) message attribute may hold.  [PyList]
    stands for the unhashable ones. *)
Inductive pyval :=
  | PyStr (s : string)
  | PyInt (n : Z)
  | PyNone
  | PyList (items : list string).

Global Instance pyval_eq_dec : EqDecision pyval.
Proof. solve_decision. Defined.

(** Exceptions that can occur in this file.  Each carries the text that
    [str(e)] renders. *)
Inductive exn :=
  | CancelledError
  | TimeoutError
  | InvalidStateError (msg : string)
  | AttributeError (msg : string)
  | TypeError (msg : string)
  | KeyError (key : string).

Global Instance exn_eq_dec : EqDecision exn.
Proof. solve_decision. Defined.

Definition str (e : exn) : string :=
  match e with
  | CancelledError | TimeoutError => ""
  | InvalidStateError m | AttributeError m | TypeError m => m
  | KeyError k => "'" +:+ k +:+ "'"
  end.

(** Outcome of a piece of Python code: a value, or a raised exception. *)
Inductive result (A : Type) : Type :=
  | Ok (a : A)
  | Raise (e : exn).
Arguments Ok {A} a.
Arguments Raise {A} e.

(** loguru records: level and formatted message. *)
Inductive log_record :=
  | INFO (msg : string)
  | WARNING (msg : string)
  | ERROR (msg : string).

(** ** asyncio.Future *)

Inductive Future :=
  | PENDING
  | FINISHED (value : pyval)
  | CANCELLED.

Global Instance Future_eq_dec : EqDecision Future.
Proof. solve_decision. Defined.

Definition done (f : Future) : bool :=
  match f with PENDING => false | _ => true end.

(** [Future.set_result]: raises [InvalidStateError] unless pending. *)
Definition set_result (f : Future) (v : pyval) : result Future :=
  match f with
  | PENDING => Ok (FINISHED v)
  | _ => Raise (InvalidStateError "invalid state")
  end.

(** [Future.cancel]: no effect on a future that is done. *)
Definition cancel (f : Future) : Future :=
  match f with PENDING => CANCELLED | _ => f end.

(** ** asyncio.Task running [_listen_outbound] *)

Inductive task_state :=
  | T_CREATED      (* scheduled by create_task; coroutine body not entered yet *)
  | T_AWAIT_GET    (* suspended in [await self.bus.get_outbound_message()] *)
  | T_RETURNED     (* the coroutine returned *)
  | T_CANCELLED.   (* CancelledError left the coroutine *)

Record Task := mkTask {
  t_state : task_state;
  must_cancel : bool;   (* cancel() was requested and not yet delivered *)
}.

Definition task_done (t : Task) : bool :=
  match t_state t with
  | T_RETURNED | T_CANCELLED => true
  | _ => false
  end.

(** [Task.cancel]: a finished task ignores it; otherwise CancelledError is
    thrown into the coroutine the next time it runs. *)
Definition task_cancel (t : Task) : Task :=
  if task_done t then t else mkTask (t_state t) true.

(** ** Bus messages *)

Module InboundMessage.
Record t := mk {
  id : string;
  channel : string;
  thread_id : string;
  sender_id : string;
  sender_name : string;
  text : string;
  timestamp : string;
  attachments : list string;
  metadata : gmap string string;
}.
End InboundMessage.

Module OutboundMessage.
(** Modelled from the spec: [nanobot.bus.events] is not among the sources.
    An object taken from the outbound queue, seen through the name of its
    class and the two attributes the dispatcher reads.  [None] means the
    attribute lookup raises [AttributeError]; a genuine OutboundMessage has
    both, as strings ([make]). *)
Record t := mk {
  class_name : string;
  thread_id : option pyval;
  text : option pyval;
}.
Definition make (thread_id text : string) : t :=
  mk "OutboundMessage" (Some (PyStr thread_id)) (Some (PyStr text)).
End OutboundMessage.

(** Attribute lookup on an object of class [cls]; the text of the
    AttributeError is Python's. *)
Definition getattr (cls attr : string) (field : option pyval) : result pyval :=
  match field with
  | Some v => Ok v
  | None =>
      Raise (AttributeError
               ("'" +:+ cls +:+ "' object has no attribute '" +:+ attr +:+ "'"))
  end.

(** [s[:n]] on the UTF-8 encoding of a Python string: the first [n]
    characters, each with the continuation bytes (10xxxxxx) that follow its
    first byte. *)
Fixpoint take_chars (n : nat) (s : string) : string :=
  match s with
  | EmptyString => EmptyString
  | String a s' =>
      match a, n with
      | Ascii.Ascii _ _ _ _ _ _ false true, _ => String a (take_chars n s')
      | _, 0 => EmptyString
      | _, S n' => String a (take_chars n' s')
      end
  end.

(** Modelled from the spec: [nanobot.bus.queue.MessageBus] is not among the
    sources.  Two independent unbounded FIFO directions; put never blocks and
    never drops, get yields the oldest item or suspends ([None]). *)
Record MessageBus := mkBus {
  inbound : list InboundMessage.t;
  outbound : list OutboundMessage.t;
}.

Definition put_inbound_message (m : InboundMessage.t) (b : MessageBus) : MessageBus :=
  mkBus (inbound b ++ [m]) (outbound b).

Definition put_outbound_message (m : OutboundMessage.t) (b : MessageBus) : MessageBus :=
  mkBus (inbound b) (outbound b ++ [m]).

Definition get_outbound_message (b : MessageBus) : option (OutboundMessage.t * MessageBus) :=
  match outbound b with
  | [] => None
  | m :: rest => Some (m, mkBus (inbound b) rest)
  end.

Definition get_inbound_message (b : MessageBus) : option (InboundMessage.t * MessageBus) :=
  match inbound b with
  | [] => None
  | m :: rest => Some (m, mkBus rest (outbound b))
  end.

(** ** The channel object and the coroutine frames *)

(** Instance attributes of [HTTPChannel].  The values of
    [pending_responses] are references into the store of futures, [_task] is
    a reference into the store of tasks. *)
Record HTTPChannel := mkHTTPChannel {
  bus : MessageBus;
  _running : bool;
  pending_responses : gmap string nat;
  _task : option nat;
}.

Definition name : string := "http".

(** Where a [send_message] invocation stands. *)
Inductive call_status :=
  | AWAIT_WAIT_FOR       (* suspended in [await asyncio.wait_for(...)] *)
  | TIMEOUT_SCHEDULED    (* released by its timer, wait_for found the future
                            pending and cancelled it; TimeoutError is raised
                            on resumption *)
  | RETURN (v : pyval)
  | RAISE (e : exn).

Global Instance call_status_eq_dec : EqDecision call_status.
Proof. solve_decision. Defined.

Module Call.
(** Arguments and local variables of one [send_message] invocation;
    [deadline] is the instant the timer of [wait_for] is set to. *)
Record t := mk {
  text : string;
  user_id : string;
  timeout : Q;
  message_id : string;
  thread_id : string;
  response_future : nat;
  deadline : Q;
  status : call_status;
}.
Definition set_status (s : call_status) (c : t) : t :=
  mk (text c) (user_id c) (timeout c) (message_id c) (thread_id c)
     (response_future c) (deadline c) s.
End Call.

(** Where a [stop] invocation stands. *)
Inductive stop_status :=
  | STOP_AWAIT_TASK (k : nat)   (* suspended in [await self._task] *)
  | STOP_RETURN.

Record World := mkWorld {
  self : HTTPChannel;
  futures : list Future;
  tasks : list Task;
  calls : list Call.t;
  stops : list stop_status;
  now : Q;                  (* the event loop's clock, in seconds *)
  uuid_draws : nat;         (* how many times uuid.uuid4() was called *)
  log : list log_record;
}.

Definition with_self (f : HTTPChannel → HTTPChannel) (w : World) : World :=
  mkWorld (f (self w)) (futures w) (tasks w) (calls w) (stops w) (now w) (uuid_draws w) (log w).
Definition with_futures (f : list Future → list Future) (w : World) : World :=
  mkWorld (self w) (f (futures w)) (tasks w) (calls w) (stops w) (now w) (uuid_draws w) (log w).
Definition with_tasks (f : list Task → list Task) (w : World) : World :=
  mkWorld (self w) (futures w) (f (tasks w)) (calls w) (stops w) (now w) (uuid_draws w) (log w).
Definition with_calls (f : list Call.t → list Call.t) (w : World) : World :=
  mkWorld (self w) (futures w) (tasks w) (f (calls w)) (stops w) (now w) (uuid_draws w) (log w).
Definition with_stops (f : list stop_status → list stop_status) (w : World) : World :=
  mkWorld (self w) (futures w) (tasks w) (calls w) (f (stops w)) (now w) (uuid_draws w) (log w).
Definition with_now (f : Q → Q) (w : World) : World :=
  mkWorld (self w) (futures w) (tasks w) (calls w) (stops w) (f (now w)) (uuid_draws w) (log w).
Definition with_uuid_draws (f : nat → nat) (w : World) : World :=
  mkWorld (self w) (futures w) (tasks w) (calls w) (stops w) (now w) (f (uuid_draws w)) (log w).
Definition logger (r : log_record) (w : World) : World :=
  mkWorld (self w) (futures w) (tasks w) (calls w) (stops w) (now w) (uuid_draws w) (log w ++ [r]).

Definition set_bus (b : MessageBus) (c : HTTPChannel) : HTTPChannel :=
  mkHTTPChannel b (_running c) (pending_responses c) (_task c).
Definition set_running (r : bool) (c : HTTPChannel) : HTTPChannel :=
  mkHTTPChannel (bus c) r (pending_responses c) (_task c).
Definition set_pending_responses (p : gmap string nat) (c : HTTPChannel) : HTTPChannel :=
  mkHTTPChannel (bus c) (_running c) p (_task c).
Definition set_task (k : option nat) (c : HTTPChannel) : HTTPChannel :=
  mkHTTPChannel (bus c) (_running c) (pending_responses c) k.

(** [HTTPChannel.__init__]: empty table, no task.  [_running] is set by
    [BaseChannel.__init__], which is not among the sources; a channel that
    was never started is not running. *)
Definition __init__ (b : MessageBus) : HTTPChannel :=
  mkHTTPChannel b false ∅ None.

Definition init : World :=
  mkWorld (__init__ (mkBus [] [])) [] [] [] [] 0%Q 0 [].

(** ** The operations of [HTTPChannel] *)

Section http.

(** The environment the module calls into: [uuid4 n] is the text of the
    n-th value [str(uuid.uuid4())] yields in this process, [utcnow_isoformat]
    renders the clock as [datetime.utcnow().isoformat()] does. *)
Variable uuid4 : nat → string.
Variable utcnow_isoformat : Q → string.

(** The resolution of the loop's clock is [1 / clock_ticks] seconds (a
    nanosecond where [clock_ticks] is 10^9). *)
Variable clock_ticks : positive.

Definition clock_resolution : Q := 1 # clock_ticks.

(** [BaseEventLoop._run_once]: a timer set to [when] is run in the
    iteration that reads the clock as [now] once
    [when < now + clock_resolution]. *)
Definition timer_due (when now : Q) : bool :=
  negb (Qle_bool (now + clock_resolution) when).

Definition TIMEOUT_NOTICE : string :=
  "⏰ Запрос занял слишком много времени. Попробуй упростить задачу.".

(** Default of the [timeout] parameter of [send_message]. *)
Definition default_timeout : Q := 120.

(** *** start *)

Definition start (w : World) : World :=
  let w := with_self (set_running true) w in
  let k := length (tasks w) in
  let w := with_tasks (λ ts, ts ++ [mkTask T_CREATED false]) w in
  let w := with_self (set_task (Some k)) w in
  logger (INFO "HTTP channel started") w.

(** *** stop *)

(** [stop] up to its first suspension.  With no task, or with a task that
    is already done, [await self._task] does not suspend and the call runs
    to its end. *)
Definition stop (w : World) : option World :=
  let w := with_self (set_running false) w in
  match _task (self w) with
  | Some k =>
      t ← tasks w !! k;
      let w := with_tasks (<[k := task_cancel t]>) w in
      if task_done t
      then Some (with_stops (λ ss, ss ++ [STOP_RETURN])
                   (logger (INFO "HTTP channel stopped") w))
      else Some (with_stops (λ ss, ss ++ [STOP_AWAIT_TASK k]) w)
  | None =>
      Some (with_stops (λ ss, ss ++ [STOP_RETURN])
              (logger (INFO "HTTP channel stopped") w))
  end.

(** The invocation [s] of [stop] is resumed once the awaited task is done:
    the await returns, or raises the CancelledError that the [except]
    clause swallows; either way the final log line follows. *)
Definition stop_resume (s : nat) (w : World) : option World :=
  st ← stops w !! s;
  match st with
  | STOP_AWAIT_TASK k =>
      t ← tasks w !! k;
      if task_done t
      then Some (with_stops (<[s := STOP_RETURN]>)
                   (logger (INFO "HTTP channel stopped") w))
      else None
  | STOP_RETURN => None
  end.

(** *** _listen_outbound *)

(** [msg.thread_id in self.pending_responses]: hashing an unhashable key
    raises TypeError; only [str] keys are ever stored. *)
Definition dict_contains (d : gmap string nat) (key : pyval) : result (option string) :=
  match key with
  | PyStr s => Ok (if d !! s is Some _ then Some s else None)
  | PyList _ => Raise (TypeError "unhashable type: 'list'")
  | _ => Ok None
  end.

(** The body of the [try] block once a message has been received,
    lines 48-52.  Python evaluates [msg.text] only when [set_result] is
    reached, after the pop.  Two branches exist only because lookups are
    partial here: [pop] after a successful [in] cannot raise KeyError, and a
    reference held by the table always designates a future ([inv_entry]
    below). *)
Definition on_outbound (msg : OutboundMessage.t) (w : World) : World * result unit :=
  match getattr (OutboundMessage.class_name msg) "thread_id"
          (OutboundMessage.thread_id msg) with
  | Raise e => (w, Raise e)
  | Ok key =>
    match dict_contains (pending_responses (self w)) key with
    | Raise e => (w, Raise e)
    | Ok None => (w, Ok ())
    | Ok (Some thread_id) =>
      match pending_responses (self w) !! thread_id with
      | None => (w, Raise (KeyError thread_id))
      | Some future =>
        let w := with_self (set_pending_responses
                              (delete thread_id (pending_responses (self w)))) w in
        match futures w !! future with
        | None => (w, Raise (InvalidStateError "no such future"))
        | Some f =>
          if negb (done f) then
            match getattr (OutboundMessage.class_name msg) "text"
                    (OutboundMessage.text msg) with
            | Raise e => (w, Raise e)
            | Ok text =>
              match set_result f text with
              | Raise e => (w, Raise e)
              | Ok f' => (with_futures (<[future := f']>) w, Ok ())
              end
            end
          else (w, Ok ())
        end
      end
    end
  end.

Definition set_task_state (k : nat) (s : task_state) (w : World) : World :=
  with_tasks (<[k := mkTask s false]>) w.

(** Back at [while self._running]: either suspend in the next get, or leave
    the loop and return. *)
Definition loop_head (k : nat) (w : World) : World :=
  if _running (self w)
  then set_task_state k T_AWAIT_GET w
  else set_task_state k T_RETURNED w.

(** The two [except] clauses of the loop. *)
Definition loop_except (k : nat) (e : exn) (w : World) : World :=
  match e with
  | CancelledError => set_task_state k T_RETURNED w
  | e => loop_head k (logger (ERROR ("Error in HTTP outbound listener: " +:+ str e)) w)
  end.

(** One scheduling slice of the task [k] that runs [_listen_outbound]: from
    its resumption to its next suspension or its end.  [None]: the task is
    not runnable (finished, or suspended on an empty queue). *)
Definition _listen_outbound_step (k : nat) (w : World) : option World :=
  t ← tasks w !! k;
  match t_state t with
  | T_CREATED =>
      if must_cancel t
      then Some (set_task_state k T_CANCELLED w)
      else Some (loop_head k w)
  | T_AWAIT_GET =>
      if must_cancel t
      then Some (loop_except k CancelledError w)
      else
        '(msg, b) ← get_outbound_message (bus (self w));
        let w := with_self (set_bus b) w in
        match on_outbound msg w with
        | (w, Ok _) => Some (loop_head k w)
        | (w, Raise e) => Some (loop_except k e w)
        end
  | T_RETURNED | T_CANCELLED => None
  end.

(** *** send_message *)

(** [send_message] up to its suspension in [wait_for], lines 72-99.  The
    [timeout] argument is [None] when the caller omits it. *)
Definition send_message (text user_id : string) (timeout : option Q) (w : World) : World :=
  let timeout := default default_timeout timeout in
  let message_id := uuid4 (uuid_draws w) in
  let w := with_uuid_draws S w in
  let thread_id := "http-" +:+ user_id in
  let response_future := length (futures w) in
  let w := with_futures (λ fs, fs ++ [PENDING]) w in
  let w := with_self (set_pending_responses
                        (<[thread_id := response_future]> (pending_responses (self w)))) w in
  let inbound :=
    InboundMessage.mk message_id name thread_id user_id user_id text
      (utcnow_isoformat (now w)) [] {["user_id" := user_id]} in
  let w := with_self (set_bus (put_inbound_message inbound (bus (self w)))) w in
  let w := logger (INFO ("HTTP message sent to bus: " +:+ take_chars 50 text +:+ "...")) w in
  with_calls (λ cs, cs ++ [Call.mk text user_id timeout message_id thread_id
                             response_future (now w + timeout)%Q AWAIT_WAIT_FOR]) w.

(** The timeout path of [asyncio.wait_for] for invocation [c]: the slice in
    which the call, released by its timer, runs and finds the awaited future
    still pending.  It cancels the future and suspends once more;
    TimeoutError is raised when it is resumed.  A released call whose future
    has been completed meanwhile takes [send_message_resume] instead and
    returns the result. *)
Definition wait_for_timeout (c : nat) (w : World) : option World :=
  fr ← calls w !! c;
  f ← futures w !! Call.response_future fr;
  match Call.status fr, f with
  | AWAIT_WAIT_FOR, PENDING =>
      if timer_due (Call.deadline fr) (now w)
      then Some (with_calls (<[c := Call.set_status TIMEOUT_SCHEDULED fr]>)
                   (with_futures (<[Call.response_future fr := cancel f]>) w))
      else None
  | _, _ => None
  end.

(** What [await asyncio.wait_for(response_future, timeout)] delivers when the
    caller is resumed; [None] while it stays suspended. *)
Definition wait_for (fr : Call.t) (w : World) : option (result pyval) :=
  match Call.status fr with
  | AWAIT_WAIT_FOR =>
      match futures w !! Call.response_future fr with
      | Some (FINISHED v) => Some (Ok v)
      | Some CANCELLED => Some (Raise CancelledError)
      | _ => None
      end
  | TIMEOUT_SCHEDULED => Some (Raise TimeoutError)
  | _ => None
  end.

(** The [try]/[except] around the wait, lines 98-104. *)
Definition send_message_finish (c : nat) (fr : Call.t) (outcome : result pyval)
    (w : World) : World :=
  match outcome with
  | Ok response =>
      with_calls (<[c := Call.set_status (RETURN response) fr]>) w
  | Raise TimeoutError =>
      let w := with_self (set_pending_responses
                            (delete (Call.thread_id fr) (pending_responses (self w)))) w in
      let w := logger (WARNING ("HTTP message timeout for user " +:+ Call.user_id fr)) w in
      with_calls (<[c := Call.set_status (RETURN (PyStr TIMEOUT_NOTICE)) fr]>) w
  | Raise e =>
      with_calls (<[c := Call.set_status (RAISE e) fr]>) w
  end.

Definition send_message_resume (c : nat) (w : World) : option World :=
  fr ← calls w !! c;
  outcome ← wait_for fr w;
  Some (send_message_finish c fr outcome w).

(** [_send_message]: not used by this channel, does nothing. *)
Definition _send_message (message : OutboundMessage.t) (w : World) : World := w.

(** ** Interleavings *)

Inductive event :=
  | EvStart
  | EvStop
  | EvStopResume (s : nat)
  | EvSend (text user_id : string) (timeout : option Q)
  | EvTimer (c : nat)                       (* the timeout path of wait_for *)
  | EvResume (c : nat)
  | EvDispatch (k : nat)
  | EvPutOutbound (m : OutboundMessage.t)   (* the consumer publishes *)
  | EvGetInbound                            (* the consumer reads *)
  | EvTick (dt : Q).                        (* time passes *)

Definition step (ev : event) (w : World) : option World :=
  match ev with
  | EvStart => Some (start w)
  | EvStop => stop w
  | EvStopResume s => stop_resume s w
  | EvSend text user_id timeout => Some (send_message text user_id timeout w)
  | EvTimer c => wait_for_timeout c w
  | EvResume c => send_message_resume c w
  | EvDispatch k => _listen_outbound_step k w
  | EvPutOutbound m =>
      Some (with_self (set_bus (put_outbound_message m (bus (self w)))) w)
  | EvGetInbound =>
      '(_, b) ← get_inbound_message (bus (self w));
      Some (with_self (set_bus b) w)
  | EvTick dt =>
      if Qle_bool 0 dt then Some (with_now (λ t, (t + dt)%Q) w) else None
  end.

Fixpoint run (evs : list event) (w : World) : option World :=
  match evs with
  | [] => Some w
  | ev :: evs => w' ← step ev w; run evs w'
  end.

(** The worlds some interleaving reaches from a fresh channel. *)
Definition reachable (w : World) : Prop := ∃ evs, run evs init = Some w.

End http.

(** ** A sample environment and sample interleavings *)

Definition sample_uuid4 (n : nat) : string := "uuid-" +:+ pretty n.
Definition sample_isoformat (t : Q) : string := "2024-01-01T00:00:00".
Definition sample_clock_ticks : positive := 1000000000.

Definition sample_run (evs : list event) : World :=
  default init (run sample_uuid4 sample_isoformat sample_clock_ticks evs init).

(** A started channel whose dispatcher is suspended in the get. *)
Definition started : list event := [EvStart; EvDispatch 0].

(** Two calls for the same user; the first has reached its deadline and
    given up waiting. *)
Definition two_calls_same_user : list event :=
  [EvSend "a" "u1" None; EvSend "b" "u1" None; EvTick 120; EvTimer 0].

(** One call with a one second timeout and no reply. *)
Definition one_call_no_reply : list event :=
  [EvSend "hello" "u1" (Some 1%Q); EvTick 1].

(** One call and its reply on the outbound queue. *)
Definition call_and_reply : list event :=
  started ++ [EvSend "hi" "u2" (Some 5%Q);
              EvPutOutbound (OutboundMessage.make "http-u2" "hi back")].

(** A reply that arrives after the call gave up waiting, before it
    resumed. *)
Definition late_reply : list event :=
  started ++ [EvSend "a" "u1" None; EvTick 120; EvTimer 0;
              EvPutOutbound (OutboundMessage.make "http-u1" "late")].

(** Two replies for one call. *)
Definition two_replies : list event :=
  started ++ [EvSend "a" "u1" None;
              EvPutOutbound (OutboundMessage.make "http-u1" "one");
              EvPutOutbound (OutboundMessage.make "http-u1" "two")].

(** A reply nobody waits for. *)
Definition orphan_reply : list event :=
  started ++ [EvPutOutbound (OutboundMessage.make "http-u9" "x")].

(** A [str], which has no [thread_id], on the outbound queue, while a call
    waits. *)
Definition bad_message : list event :=
  started ++ [EvSend "hi" "u2" None;
              EvPutOutbound (OutboundMessage.mk "str" None None)].

(** A call made before the channel is started, and its reply. *)
Definition call_before_start : list event :=
  [EvSend "hi" "u2" (Some 5%Q);
   EvPutOutbound (OutboundMessage.make "http-u2" "hi back")].

(** Two calls of one user, then a started channel and one reply. *)
Definition reply_after_overwrite : list event :=
  [EvSend "a" "u1" None; EvSend "b" "u1" None] ++ started ++
  [EvPutOutbound (OutboundMessage.make "http-u1" "reply")].

(** Two calls of two users and their replies. *)
Definition two_users : list event :=
  started ++ [EvSend "x" "u1" None; EvSend "y" "u2" None;
              EvPutOutbound (OutboundMessage.make "http-u1" "for u1");
              EvPutOutbound (OutboundMessage.make "http-u2" "for u2")].

(** A reply object without [text] for a waiting call. *)
Definition textless_reply : list event :=
  started ++ [EvSend "hi" "u2" None;
              EvPutOutbound (OutboundMessage.mk "types.SimpleNamespace"
                               (Some (PyStr "http-u2")) None)].

(** A call with a one second timeout whose reply is published after two
    seconds, before the call has run again. *)
Definition reply_after_deadline : list event :=
  started ++ [EvSend "hello" "u1" (Some 1%Q); EvTick 2].

(** A source of identifiers that yields the same value at every draw. *)
Definition colliding_uuid4 (n : nat) : string :=
  "6fa459ea-ee8a-4ca4-894e-db77e160355e".

(** Two calls of two users. *)
Definition two_calls_two_users : list event :=
  [EvSend "a" "u1" None; EvSend "b" "u2" None].

(** Two calls; the consumer has read the first request. *)
Definition consumer_read : list event :=
  [EvSend "a" "u1" None; EvSend "b" "u2" None; EvGetInbound].

Definition frame (text user_id : string) (timeout : Q) (c : nat) (deadline : Q)
    (s : call_status) : Call.t :=
  Call.mk text user_id timeout (sample_uuid4 c) ("http-" +:+ user_id) c deadline s.

(** * Properties *)

Section http_properties.

Variable uuid4 : nat → string.
Variable utcnow_isoformat : Q → string.
Variable clock_ticks : positive.

Local Abbreviation send_message := (send_message uuid4 utcnow_isoformat).
Local Abbreviation timer_due := (timer_due clock_ticks).
Local Abbreviation wait_for_timeout := (wait_for_timeout clock_ticks).
Local Abbreviation step := (step uuid4 utcnow_isoformat clock_ticks).
Local Abbreviation run := (run uuid4 utcnow_isoformat clock_ticks).
Local Abbreviation reachable := (reachable uuid4 utcnow_isoformat clock_ticks).
Local Abbreviation table w := (pending_responses (self w)).

(** What every reachable world satisfies.  Futures are only allocated by
    [send_message], so the waiter of invocation [c] is future [c]. *)
Record Inv (w : World) : Prop := mkInv {
  inv_len : length (futures w) = length (calls w);
  inv_draws : uuid_draws w = length (calls w);
  inv_call : ∀ c fr, calls w !! c = Some fr →
    Call.response_future fr = c ∧ Call.message_id fr = uuid4 c ∧
    Call.thread_id fr = "http-" +:+ Call.user_id fr;
  inv_status : ∀ c fr, calls w !! c = Some fr →
    match Call.status fr with
    | AWAIT_WAIT_FOR =>
        futures w !! c = Some PENDING ∨ ∃ v, futures w !! c = Some (FINISHED v)
    | TIMEOUT_SCHEDULED => futures w !! c = Some CANCELLED
    | RETURN _ => table w !! Call.thread_id fr ≠ Some c
    | RAISE _ => False
    end;
  inv_entry : ∀ tid f, table w !! tid = Some f →
    (∃ fr, calls w !! f = Some fr ∧ Call.thread_id fr = tid) ∧
    (futures w !! f = Some PENDING ∨ futures w !! f = Some CANCELLED) ∧
    (∀ c fr, calls w !! c = Some fr → Call.thread_id fr = tid → c ≤ f);
}.

(** The part of the world the invariant reads. *)
Definition core (w : World) : gmap string nat * list Future * list Call.t * nat :=
  (table w, futures w, calls w, uuid_draws w).

(** What a call asks for, and what an inbound message carries. *)
Definition call_request (fr : Call.t) : string * string * string * string :=
  (Call.message_id fr, Call.thread_id fr, Call.user_id fr, Call.text fr).

Definition message_request (m : InboundMessage.t) : string * string * string * string :=
  (InboundMessage.id m, InboundMessage.thread_id m, InboundMessage.sender_id m,
   InboundMessage.text m).

(** The constant part of the messages [send_message] builds. *)
Definition inbound_wf (m : InboundMessage.t) : Prop :=
  InboundMessage.channel m = name ∧
  InboundMessage.sender_name m = InboundMessage.sender_id m ∧
  InboundMessage.attachments m = [] ∧
  InboundMessage.metadata m = {["user_id" := InboundMessage.sender_id m]}.

(** The inbound queue holds the messages of the calls made after the first
    [n], in call order. *)
Definition inbound_matches_calls (w : World) : Prop :=
  ∃ n, n ≤ length (calls w) ∧
       message_request <$> inbound (bus (self w)) = drop n (call_request <$> calls w) ∧
       Forall inbound_wf (inbound (bus (self w))).

(** The call [c], made with frame [fr], has no table entry pointing at its
    waiter and has not been answered: it is waiting on its pending future,
    or it has given up waiting, or it has returned the timeout notice. *)
Definition unanswerable (c : nat) (fr : Call.t) (w : World) : Prop :=
  table w !! Call.thread_id fr ≠ Some c ∧
  ((calls w !! c = Some fr ∧ futures w !! c = Some PENDING) ∨
   (calls w !! c = Some (Call.set_status TIMEOUT_SCHEDULED fr) ∧
    futures w !! c = Some CANCELLED) ∨
   (calls w !! c = Some (Call.set_status (RETURN (PyStr TIMEOUT_NOTICE)) fr) ∧
    futures w !! c = Some CANCELLED)).

Lemma Inv_core w w' : core w' = core w → Inv w → Inv w'.
Proof.
  unfold core. intros [= Ht Hf Hc Hd] [H1 H2 H3 H4 H5].
  split; by rewrite ?Ht, ?Hf, ?Hc, ?Hd.
Qed.

(** Steps that leave table, futures, frames and uuid counter alone. *)
Ltac frame_step HI := eapply Inv_core; [|exact HI]; done.

Lemma Inv_init : Inv init.
Proof. split; try done. Qed.

Lemma Inv_send_message text user_id timeout w :
  Inv w → Inv (send_message text user_id timeout w).
Proof.
  intros [Hlen Hdr Hcall Hst Hent]. split; cbn.
  - rewrite !length_app. cbn. lia.
  - rewrite length_app. cbn. lia.
  - intros c fr [[Hc Hfr]|[-> <-]]%lookup_snoc_Some; [by apply Hcall|].
    cbn. by rewrite Hlen, Hdr.
  - intros c fr [[Hc Hfr]|[-> <-]]%lookup_snoc_Some.
    + specialize (Hst c fr Hfr).
      assert (c < length (futures w)) by lia.
      destruct (Call.status fr); rewrite ?lookup_app_l by done; try done.
      intros [[_ ?]|[_ ?]]%lookup_insert_Some; [lia|done].
    + cbn. left. rewrite <- Hlen. by apply list_lookup_middle.
  - intros tid f [[<- <-]|[Hne Hf]]%lookup_insert_Some.
    + split_and!.
      * eexists. split; [rewrite Hlen; by apply list_lookup_middle|done].
      * left. by apply list_lookup_middle.
      * intros c fr Hc%lookup_lt_Some _. rewrite length_app in Hc. cbn in Hc. lia.
    + destruct (Hent tid f Hf) as ((fr & Hfr & Htid) & Hfut & Hnew).
      assert (f < length (calls w)) by by eapply lookup_lt_Some.
      split_and!.
      * exists fr. by rewrite lookup_app_l.
      * rewrite lookup_app_l by lia. done.
      * intros c fr' [[Hc Hfr']|[-> <-]]%lookup_snoc_Some; [by eauto|].
        cbn. intros. congruence.
Qed.


Lemma lookup_set_status (cs : list Call.t) c fr s c' fr' :
  cs !! c = Some fr →
  <[c := Call.set_status s fr]> cs !! c' = Some fr' →
  (c' = c ∧ fr' = Call.set_status s fr) ∨ (c' ≠ c ∧ cs !! c' = Some fr').
Proof.
  intros Hc. destruct (decide (c = c')) as [->|Hne].
  - rewrite list_lookup_insert_eq by by eapply lookup_lt_Some. intros [= <-]. by left.
  - rewrite list_lookup_insert_ne by done. intros. right. by split.
Qed.

(** Removing a table entry ([dict.pop]) keeps the invariant. *)
Lemma Inv_pop tid w :
  Inv w → Inv (with_self (set_pending_responses (delete tid (table w))) w).
Proof.
  intros [Hlen Hdr Hcall Hst Hent]. split; cbn; try done.
  - intros c fr Hfr. specialize (Hst c fr Hfr).
    destruct (Call.status fr); try done.
    by intros [_ ?]%lookup_delete_Some.
  - intros t f [_ Hf]%lookup_delete_Some. by apply Hent.
Qed.

(** Completing a pending future that the table no longer refers to keeps
    the invariant. *)
Lemma Inv_set_result f v w :
  Inv w → futures w !! f = Some PENDING → (∀ t, table w !! t ≠ Some f) →
  Inv (with_futures (<[f := FINISHED v]>) w).
Proof.
  intros [Hlen Hdr Hcall Hst Hent] Hf Hno. split; cbn; try done.
  - by rewrite length_insert.
  - intros c fr Hfr. specialize (Hst c fr Hfr).
    destruct (decide (f = c)) as [->|Hne].
    + rewrite list_lookup_insert_eq by by eapply lookup_lt_Some.
      destruct (Call.status fr); try done; [eauto|congruence].
    + by rewrite list_lookup_insert_ne.
  - intros t f' Ht. destruct (Hent t f' Ht) as (? & ? & ?).
    split_and!; try done.
    rewrite list_lookup_insert_ne; [done|]. intros ->. by eapply Hno.
Qed.

(** What [on_outbound] can do to the world: nothing, pop the entry of the
    message's thread_id, or pop it and complete the future it held. *)
Lemma on_outbound_cases msg w w' r :
  on_outbound msg w = (w', r) →
  r ≠ Raise CancelledError ∧
  ((w' = w ∧
    ∀ tid, OutboundMessage.thread_id msg = Some (PyStr tid) → table w !! tid = None)
   ∨ ∃ tid f,
       OutboundMessage.thread_id msg = Some (PyStr tid) ∧ table w !! tid = Some f ∧
       ((w' = with_self (set_pending_responses (delete tid (table w))) w ∧
         (futures w !! f ≠ Some PENDING ∨ OutboundMessage.text msg = None))
        ∨ ∃ v, futures w !! f = Some PENDING ∧ OutboundMessage.text msg = Some v ∧
               r = Ok () ∧
               w' = with_futures (<[f := FINISHED v]>)
                      (with_self (set_pending_responses (delete tid (table w))) w))).
Proof.
  unfold on_outbound, getattr, dict_contains.
  destruct (OutboundMessage.thread_id msg) as [[tid| | |]|]; cbn;
    try (intros [<- <-]%pair_equal_spec; split; [done|left; split; [done|intros ? [=]]]).
  destruct (table w !! tid) as [f|] eqn:Hf; cbn; rewrite ?Hf; cbn.
  2: { intros [<- <-]%pair_equal_spec. split; [done|]. left. split; [done|]. by intros ? [= <-]. }
  destruct (futures w !! f) as [fu|] eqn:Hfu; cbn.
  2: { intros [<- <-]%pair_equal_spec. split; [done|]. right. exists tid, f.
       split_and!; try done. left. split; [done|]. left. congruence. }
  destruct fu; cbn.
  - destruct (OutboundMessage.text msg) as [v|]; cbn; intros [<- <-]%pair_equal_spec; (split; [done|]);
      right; exists tid, f; split_and!; try done.
    + right. by exists v.
    + left. split; [done|]. by right.
  - intros [<- <-]%pair_equal_spec. split; [done|]. right. exists tid, f. split_and!; try done.
    left. split; [done|]. left. congruence.
  - intros [<- <-]%pair_equal_spec. split; [done|]. right. exists tid, f. split_and!; try done.
    left. split; [done|]. left. congruence.
Qed.

Lemma Inv_on_outbound msg w w' r :
  Inv w → on_outbound msg w = (w', r) → Inv w'.
Proof.
  intros HI [_ [[-> _]|(tid & f & _ & Hf & [[-> _]|(v & Hfu & _ & _ & ->)])]]%on_outbound_cases;
    [done|by apply Inv_pop|].
  apply Inv_set_result; [by apply Inv_pop|done|].
  cbn. intros t [Hne Ht]%lookup_delete_Some.
  destruct (inv_entry _ HI _ _ Hf) as ((fr & Hfr & <-) & _).
  destruct (inv_entry _ HI _ _ Ht) as ((fr' & Hfr' & <-) & _).
  congruence.
Qed.

Lemma core_set_task_state k s w : core (set_task_state k s w) = core w.
Proof. done. Qed.

Lemma core_loop_head k w : core (loop_head k w) = core w.
Proof. unfold loop_head. by destruct (_running (self w)). Qed.

Lemma core_loop_except k e w : core (loop_except k e w) = core w.
Proof. destruct e; cbn; try done; by rewrite core_loop_head. Qed.

Lemma Inv_listen_outbound_step k w w' :
  Inv w → _listen_outbound_step k w = Some w' → Inv w'.
Proof.
  intros HI. unfold _listen_outbound_step.
  destruct (tasks w !! k) as [t|]; [cbn|done].
  destruct (t_state t); try done.
  - destruct (must_cancel t); intros [= <-]; eapply Inv_core; try exact HI;
      [done|apply core_loop_head].
  - destruct (must_cancel t); [intros [= <-]; eapply Inv_core; [|exact HI]; done|].
    destruct (get_outbound_message (bus (self w))) as [[msg b]|]; [cbn|done].
    destruct (on_outbound msg (with_self (set_bus b) w)) as [w1 r] eqn:Hon.
    assert (Inv w1).
    { eapply Inv_on_outbound; [|exact Hon]. eapply Inv_core; [|exact HI]. done. }
    destruct r; intros [= <-].
    + eapply Inv_core; [apply core_loop_head|done].
    + eapply Inv_core; [apply core_loop_except|done].
Qed.

Lemma Inv_wait_for_timeout c w w' :
  Inv w → wait_for_timeout c w = Some w' → Inv w'.
Proof.
  intros [Hlen Hdr Hcall Hst Hent]. unfold wait_for_timeout.
  destruct (calls w !! c) as [fr|] eqn:Hfr; [cbn|done].
  destruct (Hcall c fr Hfr) as (Hrf & _). rewrite Hrf.
  destruct (futures w !! c) as [f|] eqn:Hf; [cbn|done].
  destruct (Call.status fr) eqn:Hs; try done. destruct f; try done.
  destruct (timer_due _ _); [|done]. intros [= <-]. split; cbn.
  - by rewrite !length_insert.
  - by rewrite length_insert.
  - intros c' fr' [[-> ->]|[_ ?]]%lookup_set_status; [|by eauto|done].
    cbn. by apply Hcall.
  - intros c' fr' [[-> ->]|[? Hfr']]%lookup_set_status; [| |done].
    + cbn. apply list_lookup_insert_eq. by eapply lookup_lt_Some.
    + specialize (Hst c' fr' Hfr'). by rewrite list_lookup_insert_ne.
  - intros t f Ht. destruct (Hent t f Ht) as ((fr0 & Hfr0 & Ht0) & Hfu & Hnew).
    split_and!.
    + destruct (decide (f = c)) as [->|Hne].
      * eexists. split; [apply list_lookup_insert_eq; by eapply lookup_lt_Some|].
        cbn. congruence.
      * exists fr0. by rewrite list_lookup_insert_ne.
    + destruct (decide (c = f)) as [->|Hne].
      * right. apply list_lookup_insert_eq. by eapply lookup_lt_Some.
      * by rewrite list_lookup_insert_ne.
    + intros c' fr' [[-> ->]|[? Hfr']]%lookup_set_status; [| |done]; cbn; eauto.
Qed.

Lemma Inv_send_message_resume c w w' :
  Inv w → send_message_resume c w = Some w' → Inv w'.
Proof.
  intros HI. unfold send_message_resume.
  destruct (calls w !! c) as [fr|] eqn:Hfr; [cbn|done].
  destruct (inv_call _ HI c fr Hfr) as (Hrf & _).
  pose proof (inv_status _ HI c fr Hfr) as Hs.
  unfold wait_for. rewrite Hrf.
  assert (Hupd : ∀ s w0, Inv w0 → calls w0 = calls w →
            match s with
            | RETURN _ => table w0 !! Call.thread_id fr ≠ Some c
            | _ => False
            end →
            Inv (with_calls (<[c := Call.set_status s fr]>) w0)).
  { intros s w0 [Hlen Hdr Hcall Hst Hent] Hcs Hnew. split; cbn; rewrite ?Hcs in *.
    - by rewrite length_insert.
    - by rewrite length_insert.
    - intros c' fr' [[-> ->]|[_ ?]]%lookup_set_status; [|by eauto|done].
      cbn. by apply Hcall.
    - intros c' fr' [[-> ->]|[? Hfr']]%lookup_set_status; [| |done].
      + cbn. by destruct s.
      + by apply Hst.
    - intros t f Ht. destruct (Hent t f Ht) as ((fr0 & Hfr0 & Ht0) & Hfu & Hnew').
      split_and!; [|done|].
      + destruct (decide (f = c)) as [->|Hne].
        * eexists. split; [apply list_lookup_insert_eq; by eapply lookup_lt_Some|].
          cbn. congruence.
        * exists fr0. by rewrite list_lookup_insert_ne.
      + intros c' fr' [[-> ->]|[? Hfr']]%lookup_set_status; [| |done]; cbn; eauto. }
  destruct (Call.status fr) eqn:Hst; try done; cbn.
  - destruct (futures w !! c) as [[|v|]|] eqn:Hf; try done; cbn; intros [= <-].
    + apply Hupd; [done..|]. intros Ht.
      destruct (inv_entry _ HI _ _ Ht) as (_ & [?|?] & _); congruence.
    + destruct Hs as [?|[? ?]]; congruence.
  - intros [= <-]. apply (Hupd (RETURN _)); [|done|].
    + eapply Inv_core; [|apply (Inv_pop (Call.thread_id fr)), HI]. done.
    + cbn. by rewrite lookup_delete_eq.
Qed.

Lemma Inv_step ev w w' : Inv w → step ev w = Some w' → Inv w'.
Proof.
  intros HI. destruct ev; cbn.
  - intros [= <-]. frame_step HI.
  - unfold stop. cbn. destruct (_task (self w)) as [k|]; cbn.
    + destruct (tasks w !! k) as [t|]; [cbn|done].
      destruct (task_done t); intros [= <-]; frame_step HI.
    + intros [= <-]. frame_step HI.
  - unfold stop_resume. destruct (stops w !! s) as [[k|]|]; try done; cbn.
    destruct (tasks w !! k) as [t|]; [cbn|done].
    destruct (task_done t); [|done]. intros [= <-]. frame_step HI.
  - intros [= <-]. by apply Inv_send_message.
  - by apply Inv_wait_for_timeout.
  - by apply Inv_send_message_resume.
  - by apply Inv_listen_outbound_step.
  - intros [= <-]. frame_step HI.
  - destruct (get_inbound_message _) as [[? b]|]; [cbn|done].
    intros [= <-]. frame_step HI.
  - destruct (Qle_bool 0 dt); [|done]. intros [= <-]. frame_step HI.
Qed.

Lemma Inv_run evs w w' : Inv w → run evs w = Some w' → Inv w'.
Proof.
  revert w. induction evs as [|ev evs IH]; intros w HI; cbn.
  - by intros [= <-].
  - destruct (step ev w) as [w1|] eqn:Hstep; [cbn|done].
    apply IH. by eapply Inv_step.
Qed.

Lemma reachable_Inv w : reachable w → Inv w.
Proof. intros [evs Hrun]. eapply Inv_run; [apply Inv_init|done]. Qed.


(** *** How one step changes futures and frames *)

Lemma on_outbound_calls msg w w' r :
  on_outbound msg w = (w', r) →
  calls w' = calls w ∧ tasks w' = tasks w ∧ bus (self w') = bus (self w) ∧
  _running (self w') = _running (self w) ∧ log w' = log w ∧ stops w' = stops w ∧
  now w' = now w ∧ _task (self w') = _task (self w).
Proof.
  intros [_ [[-> _]|(tid & f & _ & _ & [[-> _]|(v & _ & _ & _ & ->)])]]%on_outbound_cases;
    done.
Qed.

(** [on_outbound] leaves every future alone, except that it completes the
    pending one that the table held under the message's thread_id. *)
Lemma on_outbound_futures msg w w' r i f :
  on_outbound msg w = (w', r) → futures w !! i = Some f →
  futures w' !! i = Some f ∨
  (f = PENDING ∧ ∃ tid v,
     OutboundMessage.thread_id msg = Some (PyStr tid) ∧
     OutboundMessage.text msg = Some v ∧ table w !! tid = Some i ∧
     futures w' !! i = Some (FINISHED v)).
Proof.
  intros [_ [[-> _]|(tid & fi & Htid & Ht & [[-> _]|(v & Hp & Hv & _ & ->)])]]%on_outbound_cases Hi;
    [by left..|]. cbn.
  destruct (decide (fi = i)) as [->|Hne].
  - right. rewrite list_lookup_insert_eq by by eapply lookup_lt_Some.
    split; [congruence|by exists tid, v].
  - left. by rewrite list_lookup_insert_ne.
Qed.

Lemma get_outbound_message_Some b msg b' :
  get_outbound_message b = Some (msg, b') ↔
  ∃ rest, outbound b = msg :: rest ∧ b' = mkBus (inbound b) rest.
Proof.
  unfold get_outbound_message. destruct (outbound b) as [|m rest]; split.
  - done.
  - by intros (? & ? & _).
  - intros [= -> <-]. by exists rest.
  - intros (? & [= -> ->] & ->). done.
Qed.

Lemma listen_outbound_step_cases k w w' :
  _listen_outbound_step k w = Some w' →
  core w' = core w ∨
  ∃ msg b w1 r,
    tasks w !! k = Some (mkTask T_AWAIT_GET false) ∧
    get_outbound_message (bus (self w)) = Some (msg, b) ∧
    on_outbound msg (with_self (set_bus b) w) = (w1, r) ∧ core w' = core w1.
Proof.
  unfold _listen_outbound_step.
  destruct (tasks w !! k) as [[ts mc]|]; [cbn|done].
  destruct ts; try done.
  - destruct mc; intros [= <-]; left; [done|apply core_loop_head].
  - destruct mc; [intros [= <-]; by left|].
    destruct (get_outbound_message (bus (self w))) as [[msg b]|]; [cbn|done].
    destruct (on_outbound msg (with_self (set_bus b) w)) as [w1 r] eqn:Hon.
    intros Hw'. right. exists msg, b, w1, r. split_and!; try done.
    destruct r; injection Hw' as <-; [apply core_loop_head|apply core_loop_except].
Qed.

(** The only ways a step changes a future: its own invocation gives up
    waiting and cancels it, or the dispatcher completes it with the text of a
    message whose thread_id is the key it is registered under. *)
Lemma step_futures ev w w' i f :
  step ev w = Some w' → futures w !! i = Some f →
  futures w' !! i = Some f ∨
  (f = PENDING ∧ futures w' !! i = Some CANCELLED ∧
   ∃ c fr, ev = EvTimer c ∧ calls w !! c = Some fr ∧ Call.response_future fr = i) ∨
  (f = PENDING ∧ ∃ k msg rest tid v,
     ev = EvDispatch k ∧ outbound (bus (self w)) = msg :: rest ∧
     OutboundMessage.thread_id msg = Some (PyStr tid) ∧
     OutboundMessage.text msg = Some v ∧ table w !! tid = Some i ∧
     futures w' !! i = Some (FINISHED v)).
Proof.
  intros Hstep Hi. destruct ev; cbn in Hstep.
  - injection Hstep as <-. by left.
  - unfold stop in Hstep. cbn in Hstep. destruct (_task (self w)) as [k|]; cbn in Hstep.
    + destruct (tasks w !! k) as [t|]; [cbn in Hstep|done].
      destruct (task_done t); injection Hstep as <-; by left.
    + injection Hstep as <-. by left.
  - unfold stop_resume in Hstep. destruct (stops w !! s) as [[k|]|]; try done; cbn in Hstep.
    destruct (tasks w !! k) as [t|]; [cbn in Hstep|done].
    destruct (task_done t); [|done]. injection Hstep as <-. by left.
  - injection Hstep as <-. left. cbn. rewrite lookup_app_l; [done|by eapply lookup_lt_Some].
  - unfold wait_for_timeout in Hstep.
    destruct (calls w !! c) as [fr|] eqn:Hc; [cbn in Hstep|done].
    destruct (futures w !! Call.response_future fr) as [fu|] eqn:Hfu; [cbn in Hstep|done].
    destruct (Call.status fr); try done. destruct fu; try done.
    destruct (timer_due _ _); [|done]. injection Hstep as <-. cbn.
    destruct (decide (Call.response_future fr = i)) as [Heq|Hne].
    + right. left. rewrite Heq in *.
      rewrite list_lookup_insert_eq by by eapply lookup_lt_Some.
      split_and!; [congruence|done|by exists c, fr].
    + left. by rewrite list_lookup_insert_ne.
  - unfold send_message_resume in Hstep.
    destruct (calls w !! c) as [fr|]; [cbn in Hstep|done].
    destruct (wait_for fr w) as [[v|e]|]; [| |done]; cbn in Hstep; injection Hstep as <-;
      [by left|]. destruct e; by left.
  - apply listen_outbound_step_cases in Hstep
      as [[= _ Hf _ _]|(msg & b & w1 & r & _ & (rest & Hq & ->)%get_outbound_message_Some
                        & Hon & [= _ Hf _ _])]; rewrite Hf.
    + by left.
    + eapply on_outbound_futures in Hon as [?|[-> (tid & v & ? & ? & ? & ?)]];
        [by left| |exact Hi].
      right. right. split; [done|]. by exists k, msg, rest, tid, v.
  - injection Hstep as <-. by left.
  - destruct (get_inbound_message _) as [[? b]|]; [cbn in Hstep|done].
    injection Hstep as <-. by left.
  - destruct (Qle_bool 0 dt); [|done]. injection Hstep as <-. by left.
Qed.

Lemma step_futures_done ev w w' i f :
  step ev w = Some w' → futures w !! i = Some f → done f = true →
  futures w' !! i = Some f.
Proof.
  intros Hstep Hi Hd.
  destruct (step_futures _ _ _ _ _ Hstep Hi) as [?|[[-> _]|[-> _]]]; done.
Qed.

(** The frame of an invocation to which the timeout path is closed is
    only changed by its own resumption. *)
Lemma step_call_parked ev w w' c fr :
  step ev w = Some w' → ev ≠ EvResume c → calls w !! c = Some fr →
  (Call.status fr = TIMEOUT_SCHEDULED ∨
   ∃ f, futures w !! Call.response_future fr = Some f ∧ done f = true) →
  calls w' !! c = Some fr.
Proof.
  intros Hstep Hev Hc Hpark. destruct ev; cbn in Hstep.
  - injection Hstep as <-. done.
  - unfold stop in Hstep. cbn in Hstep. destruct (_task (self w)) as [k|]; cbn in Hstep.
    + destruct (tasks w !! k) as [t|]; [cbn in Hstep|done].
      destruct (task_done t); injection Hstep as <-; done.
    + injection Hstep as <-. done.
  - unfold stop_resume in Hstep. destruct (stops w !! s) as [[k|]|]; try done; cbn in Hstep.
    destruct (tasks w !! k) as [t|]; [cbn in Hstep|done].
    destruct (task_done t); [|done]. injection Hstep as <-. done.
  - injection Hstep as <-. cbn. rewrite lookup_app_l; [done|by eapply lookup_lt_Some].
  - unfold wait_for_timeout in Hstep.
    destruct (calls w !! c0) as [fr0|] eqn:Hc0; [cbn in Hstep|done].
    destruct (futures w !! Call.response_future fr0) as [fu|] eqn:Hfu; [cbn in Hstep|done].
    destruct (Call.status fr0) eqn:Hs0; try done. destruct fu; try done.
    destruct (timer_due _ _); [|done]. injection Hstep as <-. cbn.
    rewrite list_lookup_insert_ne; [done|]. intros ->.
    rewrite Hc in Hc0. injection Hc0 as ->.
    destruct Hpark as [?|(f & Hf & Hd)]; [congruence|].
    rewrite Hfu in Hf. by injection Hf as <-.
  - unfold send_message_resume in Hstep.
    destruct (calls w !! c0) as [fr0|]; [cbn in Hstep|done].
    assert (c0 ≠ c) by congruence.
    destruct (wait_for fr0 w) as [[v|e]|]; [| |done]; cbn in Hstep; injection Hstep as <-;
      [|destruct e]; cbn; by rewrite list_lookup_insert_ne.
  - apply listen_outbound_step_cases in Hstep
      as [[= _ _ Hcs _]|(msg & b & w1 & r & _ & _ & Hon & [= _ _ Hcs _])]; rewrite Hcs; [done|].
    apply on_outbound_calls in Hon as [-> _]. done.
  - injection Hstep as <-. done.
  - destruct (get_inbound_message _) as [[? b]|]; [cbn in Hstep|done].
    injection Hstep as <-. done.
  - destruct (Qle_bool 0 dt); [|done]. injection Hstep as <-. done.
Qed.

Lemma run_call_parked evs w w' c fr :
  run evs w = Some w' → EvResume c ∉ evs → calls w !! c = Some fr →
  (Call.status fr = TIMEOUT_SCHEDULED ∨
   ∃ f, futures w !! Call.response_future fr = Some f ∧ done f = true) →
  calls w' !! c = Some fr ∧
  ∀ f, futures w !! Call.response_future fr = Some f → done f = true →
       futures w' !! Call.response_future fr = Some f.
Proof.
  revert w. induction evs as [|ev evs IH]; intros w; cbn.
  - intros [= <-]. done.
  - destruct (step ev w) as [w1|] eqn:Hstep; [cbn|done].
    intros Hrun [Hev Hevs]%not_elem_of_cons Hc Hpark.
    assert (calls w1 !! c = Some fr) as Hc1 by by eapply step_call_parked.
    assert (Hpark1 : Call.status fr = TIMEOUT_SCHEDULED ∨
              ∃ f, futures w1 !! Call.response_future fr = Some f ∧ done f = true).
    { destruct Hpark as [?|(f & Hf & Hd)]; [by left|]. right. exists f.
      split; [by eapply step_futures_done|done]. }
    destruct (IH w1 Hrun Hevs Hc1 Hpark1) as [Hc' Hf'].
    split; [done|]. intros f Hf Hd. apply Hf'; [|done]. by eapply step_futures_done.
Qed.


(** *** The dispatcher on one message *)

Lemma on_outbound_absent msg tid w :
  OutboundMessage.thread_id msg = Some (PyStr tid) → table w !! tid = None →
  on_outbound msg w = (w, Ok ()).
Proof. intros Hm Ht. unfold on_outbound. rewrite Hm. cbn. by rewrite Ht. Qed.

Lemma on_outbound_done msg tid i f w :
  OutboundMessage.thread_id msg = Some (PyStr tid) → table w !! tid = Some i →
  futures w !! i = Some f → done f = true →
  on_outbound msg w =
    (with_self (set_pending_responses (delete tid (table w))) w, Ok ()).
Proof.
  intros Hm Ht Hf Hd. unfold on_outbound. rewrite Hm. cbn. rewrite !Ht. cbn.
  rewrite Hf. by rewrite Hd.
Qed.

Lemma on_outbound_pending msg tid v i w :
  OutboundMessage.thread_id msg = Some (PyStr tid) →
  OutboundMessage.text msg = Some v → table w !! tid = Some i →
  futures w !! i = Some PENDING →
  on_outbound msg w =
    (with_futures (<[i := FINISHED v]>)
       (with_self (set_pending_responses (delete tid (table w))) w), Ok ()).
Proof.
  intros Hm Hv Ht Hf. unfold on_outbound. rewrite Hm, Hv. cbn. rewrite !Ht. cbn.
  by rewrite Hf.
Qed.

Lemma listen_outbound_step_message k w msg rest :
  tasks w !! k = Some (mkTask T_AWAIT_GET false) →
  outbound (bus (self w)) = msg :: rest →
  _listen_outbound_step k w =
    Some (match on_outbound msg
                  (with_self (set_bus (mkBus (inbound (bus (self w))) rest)) w) with
          | (w1, Ok _) => loop_head k w1
          | (w1, Raise e) => loop_except k e w1
          end).
Proof.
  intros Hk Hq. unfold _listen_outbound_step, get_outbound_message.
  rewrite Hk, Hq. cbn. by destruct (on_outbound _ _) as [w1 [[]|e]].
Qed.

(** *** Timeout path of [send_message] *)

(** A timer whose instant has come is due. *)
Lemma timer_due_le when t : Qle_bool when t = true → timer_due when t = true.
Proof.
  intros H%Qle_bool_iff. unfold timer_due. apply negb_true_iff.
  destruct (Qle_bool (t + clock_resolution clock_ticks) when) eqn:E; [|done].
  apply Qle_bool_iff in E.
  assert (0 < clock_resolution clock_ticks)%Q by reflexivity.
  generalize dependent (clock_resolution clock_ticks). intros. lra.
Qed.

Lemma wait_for_timeout_due w c fr :
  calls w !! c = Some fr → Call.status fr = AWAIT_WAIT_FOR →
  futures w !! Call.response_future fr = Some PENDING →
  timer_due (Call.deadline fr) (now w) = true →
  wait_for_timeout c w =
    Some (with_calls (<[c := Call.set_status TIMEOUT_SCHEDULED fr]>)
            (with_futures (<[Call.response_future fr := CANCELLED]>) w)).
Proof.
  intros Hc Hs Hf Hd. unfold wait_for_timeout. rewrite Hc. cbn.
  rewrite Hf. cbn. by rewrite Hs, Hd.
Qed.

Lemma wait_for_timeout_fires w c fr :
  calls w !! c = Some fr → Call.status fr = AWAIT_WAIT_FOR →
  futures w !! Call.response_future fr = Some PENDING →
  Qle_bool (Call.deadline fr) (now w) = true →
  wait_for_timeout c w =
    Some (with_calls (<[c := Call.set_status TIMEOUT_SCHEDULED fr]>)
            (with_futures (<[Call.response_future fr := CANCELLED]>) w)).
Proof. intros Hc Hs Hf Hd%timer_due_le. by apply wait_for_timeout_due. Qed.

Lemma send_message_resume_timeout w c fr :
  calls w !! c = Some fr → Call.status fr = TIMEOUT_SCHEDULED →
  send_message_resume c w = Some (send_message_finish c fr (Raise TimeoutError) w).
Proof.
  intros Hc Hs. unfold send_message_resume, wait_for. rewrite Hc. cbn. by rewrite Hs.
Qed.

Lemma send_message_finish_timeout w c fr :
  calls w !! c = Some fr →
  let w' := send_message_finish c fr (Raise TimeoutError) w in
  table w' = delete (Call.thread_id fr) (table w) ∧
  calls w' !! c = Some (Call.set_status (RETURN (PyStr TIMEOUT_NOTICE)) fr) ∧
  futures w' = futures w.
Proof.
  intros Hc. cbn. split_and!; try done.
  apply list_lookup_insert_eq. by eapply lookup_lt_Some.
Qed.


(** ** The claims *)

(** C1 (amended).  When a [send_message] call is resumed by its timeout, the
    table entry under its thread_id is removed whatever waiter it points at
    (the [pop] has no identity check), every other entry is kept, and the
    call returns the notice.  In every reachable world, once a call has
    returned (by either path) the table has no entry under its thread_id,
    unless a later call for the same thread_id has installed its own waiter
    there. *)
Theorem send_message_table_cleanup w c fr :
  reachable w → calls w !! c = Some fr →
  (Call.status fr = TIMEOUT_SCHEDULED →
   ∃ w', send_message_resume c w = Some w' ∧
         table w' = delete (Call.thread_id fr) (table w) ∧
         table w' !! Call.thread_id fr = None ∧
         calls w' !! c = Some (Call.set_status (RETURN (PyStr TIMEOUT_NOTICE)) fr)) ∧
  (∀ v, Call.status fr = RETURN v →
   table w !! Call.thread_id fr = None ∨
   ∃ c' fr', c < c' ∧ calls w !! c' = Some fr' ∧
             Call.thread_id fr' = Call.thread_id fr ∧
             table w !! Call.thread_id fr = Some (Call.response_future fr')).
Proof.
  intros HI%reachable_Inv Hc. split.
  - intros Hs. eexists. split; [by apply send_message_resume_timeout|].
    destruct (send_message_finish_timeout w c fr Hc) as (Ht & Hc' & _).
    split_and!; [done| |done]. rewrite Ht. apply lookup_delete_eq.
  - intros v Hs. pose proof (inv_status _ HI c fr Hc) as Hown. rewrite Hs in Hown.
    destruct (table w !! Call.thread_id fr) as [f|] eqn:Ht; [right|by left].
    destruct (inv_entry _ HI _ _ Ht) as ((fr' & Hfr' & Htid) & _ & Hnew).
    destruct (inv_call _ HI _ _ Hfr') as (Hrf & _).
    exists f, fr'. split_and!; [|done|done|congruence].
    specialize (Hnew c fr Hc eq_refl). assert (f ≠ c) by congruence. lia.
Qed.

(** C2 (amended).  A call that runs once its timer is due and finds its
    future still pending gives up waiting: [wait_for] cancels the future,
    and whatever else runs before the call is resumed, the resumption logs
    the warning and returns the fixed notice, with the text below, as an
    ordinary return value; no invocation in that world has an exception as
    its outcome.  The passing of the deadline alone does not decide this: a
    reply that completes the future before the call has run again is
    returned instead. *)
Theorem send_message_timeout_returns_notice w c fr :
  reachable w → calls w !! c = Some fr → Call.status fr = AWAIT_WAIT_FOR →
  futures w !! Call.response_future fr = Some PENDING →
  timer_due (Call.deadline fr) (now w) = true →
  ∃ w1, wait_for_timeout c w = Some w1 ∧
    futures w1 !! Call.response_future fr = Some CANCELLED ∧
    ∀ evs w2, EvResume c ∉ evs → run evs w1 = Some w2 →
      ∃ w3, send_message_resume c w2 = Some w3 ∧
        calls w3 !! c =
          Some (Call.set_status
                  (RETURN (PyStr "⏰ Запрос занял слишком много времени. Попробуй упростить задачу."))
                  fr) ∧
        log w3 = log w2 ++ [WARNING ("HTTP message timeout for user " +:+ Call.user_id fr)] ∧
        ∀ c' fr' e, calls w3 !! c' = Some fr' → Call.status fr' ≠ RAISE e.
Proof.
  intros HI%reachable_Inv Hc Hs Hf Hd.
  pose proof (wait_for_timeout_due w c fr Hc Hs Hf Hd) as Hfire.
  eexists. split; [exact Hfire|]. split.
  { cbn. apply list_lookup_insert_eq. by eapply lookup_lt_Some. }
  intros evs w2 Hevs Hrun.
  assert (Inv w2) as HI2.
  { eapply Inv_run; [|exact Hrun]. eapply Inv_wait_for_timeout; [exact HI|exact Hfire]. }
  destruct (run_call_parked evs _ w2 c (Call.set_status TIMEOUT_SCHEDULED fr) Hrun Hevs)
    as [Hc2 _].
  { cbn. apply list_lookup_insert_eq. by eapply lookup_lt_Some. }
  { by left. }
  pose proof (send_message_resume_timeout w2 c _ Hc2 eq_refl) as Hres.
  eexists. split; [exact Hres|].
  destruct (send_message_finish_timeout w2 c _ Hc2) as (_ & Hc3 & _).
  split; [exact Hc3|]. split; [done|]. intros c' fr' e Hc' Hraise.
  assert (Inv (send_message_finish c (Call.set_status TIMEOUT_SCHEDULED fr)
                 (Raise TimeoutError) w2)) as HI3
    by (eapply Inv_send_message_resume; [exact HI2|exact Hres]).
  pose proof (inv_status _ HI3 c' fr' Hc') as H. by rewrite Hraise in H.
Qed.


(** C3.  (a) A waiting call whose thread_id is the key of its own waiter in
    the table, and a dispatcher that dequeues an outbound message with that
    same thread_id: the waiter is completed with the message's text, the
    timeout path is closed, and whatever else runs before the call is
    resumed, the call returns exactly that text.  (b) In a reachable world, a
    step completes the waiter of a call only if it is a dispatcher step on a
    message whose thread_id is, as a string, equal to the call's thread_id
    ("http-" followed by the user id), and then with that message's text.
    (c) A resumed call returns either the content of its completed waiter or,
    after it gave up waiting, the notice. *)
Theorem send_message_returns_matching_reply w c fr :
  calls w !! c = Some fr →
  (∀ k txt rest,
     Call.status fr = AWAIT_WAIT_FOR →
     futures w !! Call.response_future fr = Some PENDING →
     table w !! Call.thread_id fr = Some (Call.response_future fr) →
     tasks w !! k = Some (mkTask T_AWAIT_GET false) →
     outbound (bus (self w)) = OutboundMessage.make (Call.thread_id fr) txt :: rest →
     ∃ w1, _listen_outbound_step k w = Some w1 ∧
       futures w1 !! Call.response_future fr = Some (FINISHED (PyStr txt)) ∧
       wait_for_timeout c w1 = None ∧
       ∀ evs w2, EvResume c ∉ evs → run evs w1 = Some w2 →
         ∃ w3, send_message_resume c w2 = Some w3 ∧
           calls w3 !! c = Some (Call.set_status (RETURN (PyStr txt)) fr)) ∧
  (∀ ev w' v,
     reachable w → step ev w = Some w' →
     futures w !! Call.response_future fr = Some PENDING →
     futures w' !! Call.response_future fr = Some (FINISHED v) →
     Call.thread_id fr = "http-" +:+ Call.user_id fr ∧
     ∃ k msg rest, ev = EvDispatch k ∧ outbound (bus (self w)) = msg :: rest ∧
       OutboundMessage.thread_id msg = Some (PyStr (Call.thread_id fr)) ∧
       OutboundMessage.text msg = Some v) ∧
  (∀ w' v,
     send_message_resume c w = Some w' →
     Call.status <$> calls w' !! c = Some (RETURN v) →
     (Call.status fr = AWAIT_WAIT_FOR ∧
      futures w !! Call.response_future fr = Some (FINISHED v)) ∨
     (Call.status fr = TIMEOUT_SCHEDULED ∧ v = PyStr TIMEOUT_NOTICE)).
Proof.
  intros Hc. split_and!.
  - intros k txt rest Hs Hf Ht Hk Hq.
    set (w0 := with_futures (<[Call.response_future fr := FINISHED (PyStr txt)]>)
                 (with_self (set_pending_responses
                               (delete (Call.thread_id fr) (table w)))
                    (with_self (set_bus (mkBus (inbound (bus (self w))) rest)) w))).
    assert (_listen_outbound_step k w = Some (loop_head k w0)) as Hstep.
    { rewrite (listen_outbound_step_message k w _ rest Hk Hq).
      by erewrite on_outbound_pending. }
    exists (loop_head k w0). split; [exact Hstep|].
    pose proof (core_loop_head k w0) as [= _ Hfs Hcs _].
    assert (futures (loop_head k w0) !! Call.response_future fr
            = Some (FINISHED (PyStr txt))) as Hf1.
    { rewrite Hfs. cbn. apply list_lookup_insert_eq. by eapply lookup_lt_Some. }
    assert (calls (loop_head k w0) !! c = Some fr) as Hc1 by by rewrite Hcs.
    split_and!; [done| |].
    + unfold wait_for_timeout. rewrite Hc1. cbn. rewrite Hf1. cbn. by rewrite Hs.
    + intros evs w2 Hevs Hrun.
      destruct (run_call_parked evs _ w2 c fr Hrun Hevs Hc1) as [Hc2 Hf2];
        [right; by eexists|].
      specialize (Hf2 _ Hf1 eq_refl).
      eexists. split.
      * unfold send_message_resume, wait_for. rewrite Hc2. cbn. rewrite Hs, Hf2. done.
      * cbn. apply list_lookup_insert_eq. by eapply lookup_lt_Some.
  - intros ev w' v HI%reachable_Inv Hstep Hp Hfin.
    destruct (inv_call _ HI _ _ Hc) as (Hrf & _ & Htid). split; [done|].
    destruct (step_futures _ _ _ _ _ Hstep Hp)
      as [?|[(_ & ? & _)|(_ & k & msg & rest & tid & v' & -> & Hq & Hm & Hv & Ht & Hf')]];
      [congruence..|].
    exists k, msg, rest. split_and!; [done..| |congruence].
    destruct (inv_entry _ HI _ _ Ht) as ((fr0 & Hfr0 & <-) & _).
    rewrite Hrf in Hfr0. congruence.
  - intros w' v. unfold send_message_resume, wait_for. rewrite Hc. cbn.
    destruct (Call.status fr) eqn:Hs; try done; cbn.
    + destruct (futures w !! Call.response_future fr) as [[|v'|]|]; try done; cbn;
        intros [= <-]; cbn;
        rewrite list_lookup_insert_eq by (by eapply lookup_lt_Some); cbn; [|done].
      intros [= ->]. by left.
    + intros [= <-]. cbn.
      rewrite list_lookup_insert_eq by (by eapply lookup_lt_Some). cbn.
      intros [= <-]. by right.
Qed.

(** C4.  A future that is done (completed or cancelled) is left as it is by
    every step.  With two outbound messages for the same thread_id at the
    head of the queue and one pending waiter registered: the first dispatch
    pops the entry and completes the waiter with the first text; the second
    dispatch finds no entry and changes neither the table nor any future. *)
Theorem waiter_single_assignment :
  (∀ ev w w' i f,
     step ev w = Some w' → futures w !! i = Some f → done f = true →
     futures w' !! i = Some f) ∧
  (∀ w k tid i txt1 txt2 rest,
     tasks w !! k = Some (mkTask T_AWAIT_GET false) → _running (self w) = true →
     outbound (bus (self w)) =
       OutboundMessage.make tid txt1 :: OutboundMessage.make tid txt2 :: rest →
     table w !! tid = Some i → futures w !! i = Some PENDING →
     ∃ w1 w2,
       _listen_outbound_step k w = Some w1 ∧ _listen_outbound_step k w1 = Some w2 ∧
       futures w1 !! i = Some (FINISHED (PyStr txt1)) ∧ table w1 !! tid = None ∧
       on_outbound (OutboundMessage.make tid txt2)
         (with_self (set_bus (mkBus (inbound (bus (self w1))) rest)) w1)
       = (with_self (set_bus (mkBus (inbound (bus (self w1))) rest)) w1, Ok ()) ∧
       futures w2 = futures w1 ∧ table w2 = table w1 ∧
       outbound (bus (self w2)) = rest).
Proof.
  split; [apply step_futures_done|].
  intros w k tid i txt1 txt2 rest Hk Hrun Hq Ht Hf.
  set (w0 := with_futures (<[i := FINISHED (PyStr txt1)]>)
               (with_self (set_pending_responses (delete tid (table w)))
                  (with_self (set_bus (mkBus (inbound (bus (self w)))
                                         (OutboundMessage.make tid txt2 :: rest))) w))).
  assert (_listen_outbound_step k w = Some (loop_head k w0)) as Hstep1.
  { rewrite (listen_outbound_step_message k w _ _ Hk Hq).
    by erewrite on_outbound_pending. }
  assert (loop_head k w0 = set_task_state k T_AWAIT_GET w0) as Hw1
    by (unfold loop_head; cbn; by rewrite Hrun).
  rewrite Hw1 in Hstep1. set (w1 := set_task_state k T_AWAIT_GET w0) in *.
  assert (table w1 !! tid = None) as Ht1 by (cbn; apply lookup_delete_eq).
  assert (tasks w1 !! k = Some (mkTask T_AWAIT_GET false)) as Hk1.
  { cbn. apply list_lookup_insert_eq. by eapply lookup_lt_Some. }
  assert (on_outbound (OutboundMessage.make tid txt2)
            (with_self (set_bus (mkBus (inbound (bus (self w1))) rest)) w1)
          = (with_self (set_bus (mkBus (inbound (bus (self w1))) rest)) w1, Ok ()))
    as Hon2 by (by eapply on_outbound_absent).
  exists w1, (loop_head k (with_self (set_bus (mkBus (inbound (bus (self w1))) rest)) w1)).
  split_and!; try done.
  - rewrite (listen_outbound_step_message k w1 (OutboundMessage.make tid txt2) rest Hk1 eq_refl).
    by rewrite Hon2.
  - cbn. apply list_lookup_insert_eq. by eapply lookup_lt_Some.
  - by pose proof (core_loop_head k
      (with_self (set_bus (mkBus (inbound (bus (self w1))) rest)) w1)) as [= _ ? _ _].
  - by pose proof (core_loop_head k
      (with_self (set_bus (mkBus (inbound (bus (self w1))) rest)) w1)) as [= ? _ _ _].
  - unfold loop_head. cbn. by rewrite Hrun.
Qed.


(** C5.  The dispatcher, suspended in the get, with an OutboundMessage at
    the head of the queue: with no entry under the message's thread_id the
    message is dropped and only the queue and the task's position change;
    with an entry whose waiter is pending the entry is popped and the waiter
    completed with the text; with an entry whose waiter is already done the
    entry is popped and the waiter left alone.  In every case the table has
    no entry under that thread_id afterwards and keeps all others. *)
Theorem dispatcher_pops_and_completes k w tid txt rest :
  tasks w !! k = Some (mkTask T_AWAIT_GET false) →
  outbound (bus (self w)) = OutboundMessage.make tid txt :: rest →
  let w0 := with_self (set_bus (mkBus (inbound (bus (self w))) rest)) w in
  let popped := with_self (set_pending_responses (delete tid (table w))) w0 in
  (table w !! tid = None → _listen_outbound_step k w = Some (loop_head k w0)) ∧
  (∀ i, table w !! tid = Some i → futures w !! i = Some PENDING →
     _listen_outbound_step k w =
       Some (loop_head k (with_futures (<[i := FINISHED (PyStr txt)]>) popped))) ∧
  (∀ i f, table w !! tid = Some i → futures w !! i = Some f → done f = true →
     _listen_outbound_step k w = Some (loop_head k popped)) ∧
  (∀ w', _listen_outbound_step k w = Some w' →
     table w' !! tid = None ∧
     (∀ tid', tid' ≠ tid → table w' !! tid' = table w !! tid') ∧
     outbound (bus (self w')) = rest ∧ calls w' = calls w).
Proof.
  intros Hk Hq w0 popped.
  pose proof (listen_outbound_step_message k w _ rest Hk Hq) as Hstep.
  fold w0 in Hstep. split_and!.
  - intros Ht. rewrite Hstep. by erewrite on_outbound_absent.
  - intros i Ht Hf. rewrite Hstep. by erewrite on_outbound_pending.
  - intros i f Ht Hf Hd. rewrite Hstep. by erewrite on_outbound_done.
  - intros w'. rewrite Hstep.
    destruct (on_outbound (OutboundMessage.make tid txt) w0) as [w1 r] eqn:Hon.
    intros Hw'.
    assert (core w' = core w1 ∧ bus (self w') = bus (self w1)) as [[= Ht' _ Hc' _] Hb'].
    { destruct r as [[]|e]; injection Hw' as <-.
      - split; [apply core_loop_head|]. unfold loop_head. by destruct (_running _).
      - split; [apply core_loop_except|]. destruct e; cbn; try done;
          unfold loop_head; by destruct (_running _). }
    rewrite Ht', Hc', Hb'.
    destruct (on_outbound_calls _ _ _ _ Hon) as (-> & _ & -> & _).
    apply on_outbound_cases in Hon
      as [_ [[-> Habs]|(tid0 & f & [= <-] & Hf & [[-> _]|(v & _ & _ & _ & ->)])]]; cbn.
    + split_and!; try done. by apply Habs.
    + split_and!; try done; [apply lookup_delete_eq|].
      intros. by apply lookup_delete_ne.
    + split_and!; try done; [apply lookup_delete_eq|].
      intros. by apply lookup_delete_ne.
Qed.

Lemma loop_head_fields k w :
  tasks (loop_head k w) =
    <[k := mkTask (if _running (self w) then T_AWAIT_GET else T_RETURNED) false]> (tasks w) ∧
  self (loop_head k w) = self w ∧ futures (loop_head k w) = futures w ∧
  calls (loop_head k w) = calls w ∧ log (loop_head k w) = log w ∧
  stops (loop_head k w) = stops w ∧ now (loop_head k w) = now w.
Proof. unfold loop_head. by destruct (_running (self w)). Qed.

(** C6.  The dispatcher suspended in the get.  If cancellation was
    requested, its next slice leaves the loop and the coroutine returns;
    nothing else changes.  Otherwise, for any object at the head of the
    queue, well formed or not: the slice succeeds, an exception raised while
    handling the object is never CancelledError and is logged as an error,
    the task is back at the loop head (suspended in the next get while the
    channel is running), the object is consumed, no call frame changes,
    table entries under other keys are kept, and no future other than the
    one registered under the object's thread_id changes. *)
Theorem dispatcher_crash_resistant k w t :
  tasks w !! k = Some t → t_state t = T_AWAIT_GET →
  (must_cancel t = true →
   _listen_outbound_step k w = Some (set_task_state k T_RETURNED w)) ∧
  (∀ msg rest, must_cancel t = false → outbound (bus (self w)) = msg :: rest →
   ∃ w1 r w',
     on_outbound msg (with_self (set_bus (mkBus (inbound (bus (self w))) rest)) w)
       = (w1, r) ∧
     r ≠ Raise CancelledError ∧
     _listen_outbound_step k w = Some w' ∧
     tasks w' = <[k := mkTask (if _running (self w) then T_AWAIT_GET else T_RETURNED)
                          false]> (tasks w) ∧
     log w' = log w ++ match r with
                       | Ok _ => []
                       | Raise e => [ERROR ("Error in HTTP outbound listener: " +:+ str e)]
                       end ∧
     outbound (bus (self w')) = rest ∧ calls w' = calls w ∧
     (∀ tid, OutboundMessage.thread_id msg ≠ Some (PyStr tid) →
             table w' !! tid = table w !! tid) ∧
     (∀ i, (∀ tid, OutboundMessage.thread_id msg = Some (PyStr tid) →
                   table w !! tid ≠ Some i) →
           futures w' !! i = futures w !! i)).
Proof.
  intros Hk Hs. split.
  - intros Hmc. unfold _listen_outbound_step. rewrite Hk. cbn. by rewrite Hs, Hmc.
  - intros msg rest Hmc Hq.
    assert (tasks w !! k = Some (mkTask T_AWAIT_GET false)) as Hk'
      by (destruct t; cbn in *; congruence).
    pose proof (listen_outbound_step_message k w msg rest Hk' Hq) as Hstep.
    set (w0 := with_self (set_bus (mkBus (inbound (bus (self w))) rest)) w) in *.
    destruct (on_outbound msg w0) as [w1 r] eqn:Hon.
    destruct (on_outbound_calls _ _ _ _ Hon) as (Hc1 & Ht1 & Hb1 & Hr1 & Hl1 & _).
    assert (∃ w', _listen_outbound_step k w = Some w' ∧
              r ≠ Raise CancelledError ∧
              tasks w' = <[k := mkTask (if _running (self w) then T_AWAIT_GET
                                        else T_RETURNED) false]> (tasks w) ∧
              log w' = log w ++ match r with
                                | Ok _ => []
                                | Raise e =>
                                    [ERROR ("Error in HTTP outbound listener: " +:+ str e)]
                                end ∧
              self w' = self w1 ∧ futures w' = futures w1 ∧ calls w' = calls w1)
      as (w' & Hw' & Hnc & Htasks & Hlog & Hself & Hfut & Hcalls).
    { pose proof (on_outbound_cases _ _ _ _ Hon) as [Hnc _].
      eexists. split; [exact Hstep|]. split; [done|].
      destruct r as [[]|e].
      - destruct (loop_head_fields k w1) as (-> & -> & -> & -> & -> & _).
        rewrite Hr1, Ht1, Hl1, app_nil_r. done.
      - assert (loop_except k e w1 = loop_head k
                  (logger (ERROR ("Error in HTTP outbound listener: " +:+ str e)) w1))
          as -> by (by destruct e).
        destruct (loop_head_fields k
          (logger (ERROR ("Error in HTTP outbound listener: " +:+ str e)) w1))
          as (-> & -> & -> & -> & -> & _).
        cbn. rewrite Hr1, Ht1, Hl1. done. }
    exists w1, r, w'. split_and!; try done.
    + by rewrite Hself, Hb1.
    + by rewrite Hcalls, Hc1.
    + intros tid Hne. rewrite Hself.
      apply on_outbound_cases in Hon
        as [_ [[-> _]|(tid0 & f & Hm & _ & [[-> _]|(v & _ & _ & _ & ->)])]]; cbn;
        [done|..]; apply lookup_delete_ne; congruence.
    + intros i Hi. rewrite Hfut.
      apply on_outbound_cases in Hon
        as [_ [[-> _]|(tid0 & f & Hm & Hf & [[-> _]|(v & _ & _ & _ & ->)])]]; cbn;
        [done..|].
      apply list_lookup_insert_ne. intros ->. by eapply Hi.
Qed.


(** C7 (amended).  Every [send_message text user_id timeout] call keys the
    conversation by "http-" followed by the user id, waits [timeout] seconds
    or 120 when the argument is omitted, draws one value from uuid4 and
    publishes exactly one inbound message, which carries that value as its
    id together with the thread_id, channel "http", sender and text.  The
    code compares the id with nothing: in a reachable world the message ids
    of all calls made so far are the values uuid4 has yielded so far, in
    order, so they are pairwise distinct exactly when those values are, and
    the id of the new call equals that of an earlier call exactly when uuid4
    has yielded the earlier value again. *)
Theorem send_message_identifiers text user_id timeout w :
  let w' := send_message text user_id timeout w in
  (∃ fr m,
     calls w' = calls w ++ [fr] ∧
     inbound (bus (self w')) = inbound (bus (self w)) ++ [m] ∧
     Call.thread_id fr = "http-" +:+ user_id ∧
     Call.thread_id fr = name +:+ "-" +:+ user_id ∧
     Call.timeout fr = default 120%Q timeout ∧
     Call.message_id fr = uuid4 (uuid_draws w) ∧
     uuid_draws w' = S (uuid_draws w) ∧
     InboundMessage.id m = Call.message_id fr ∧
     InboundMessage.thread_id m = "http-" +:+ user_id ∧
     InboundMessage.channel m = "http" ∧
     InboundMessage.sender_id m = user_id ∧
     InboundMessage.text m = text) ∧
  (reachable w →
   Call.message_id <$> calls w' = uuid4 <$> seq 0 (uuid_draws w') ∧
   (NoDup (Call.message_id <$> calls w') ↔ NoDup (uuid4 <$> seq 0 (uuid_draws w'))) ∧
   ∀ c fr0, calls w !! c = Some fr0 →
     c < uuid_draws w ∧
     (Call.message_id fr0 = uuid4 (uuid_draws w) ↔ uuid4 c = uuid4 (uuid_draws w))).
Proof.
  intros w'. split.
  - do 2 eexists. by split_and!.
  - intros HI%reachable_Inv.
    assert (Inv w') as HI' by by apply Inv_send_message.
    assert (Call.message_id <$> calls w' = uuid4 <$> seq 0 (uuid_draws w')) as Heq.
    { apply list_eq. intros i. rewrite !list_lookup_fmap, (inv_draws _ HI').
      destruct (calls w' !! i) as [fr|] eqn:Hi; cbn.
      - rewrite lookup_seq_lt by by eapply lookup_lt_Some. cbn.
        by destruct (inv_call _ HI' _ _ Hi) as (_ & -> & _).
      - apply lookup_ge_None in Hi.
        by rewrite (proj2 (lookup_ge_None _ _)) by by rewrite length_seq. }
    split; [done|]. split; [by rewrite Heq|]. intros c fr0 Hc.
    destruct (inv_call _ HI _ _ Hc) as (_ & -> & _). split; [|done].
    rewrite (inv_draws _ HI). by eapply lookup_lt_Some.
Qed.

(** *** stop *)

Lemma stop_resume_Some s w w' :
  stop_resume s w = Some w' →
  ∃ k t, stops w !! s = Some (STOP_AWAIT_TASK k) ∧ tasks w !! k = Some t ∧
         task_done t = true ∧
         w' = with_stops (<[s := STOP_RETURN]>) (logger (INFO "HTTP channel stopped") w).
Proof.
  unfold stop_resume. destruct (stops w !! s) as [[k|]|] eqn:Hs; try done; cbn.
  destruct (tasks w !! k) as [t|] eqn:Hk; [cbn|done].
  destruct (task_done t) eqn:Hd; [|done]. intros [= <-]. by exists k, t.
Qed.

(** A call waiting on a pending future stays suspended, without an
    exception, until it gives up waiting; then it returns the notice. *)
Lemma still_waiting w w1 c fr :
  calls w1 = calls w → futures w1 = futures w →
  calls w !! c = Some fr → Call.status fr = AWAIT_WAIT_FOR →
  futures w !! Call.response_future fr = Some PENDING →
  calls w1 !! c = Some fr ∧ wait_for fr w1 = None ∧
  send_message_resume c w1 = None ∧
  (Qle_bool (Call.deadline fr) (now w1) = true →
   ∃ w2 w3, wait_for_timeout c w1 = Some w2 ∧
            send_message_resume c w2 = Some w3 ∧
            calls w3 !! c = Some (Call.set_status (RETURN (PyStr TIMEOUT_NOTICE)) fr)).
Proof.
  intros Hcs Hfs Hc Hs Hf. rewrite <- Hcs in Hc. rewrite <- Hfs in Hf.
  assert (wait_for fr w1 = None) as Hw by (unfold wait_for; by rewrite Hs, Hf).
  split_and!; try done.
  - unfold send_message_resume. rewrite Hc. cbn. by rewrite Hw.
  - intros Hdl.
    pose proof (wait_for_timeout_fires w1 c fr Hc Hs Hf Hdl) as Hfire.
    eexists. eexists. split; [exact Hfire|].
    assert (c < length (calls w1)) by by eapply lookup_lt_Some.
    split.
    + apply (send_message_resume_timeout _ c (Call.set_status TIMEOUT_SCHEDULED fr));
        [|done]. cbn. by apply list_lookup_insert_eq.
    + cbn. apply list_lookup_insert_eq. by rewrite length_insert.
Qed.

(** C8.  [stop] on a started channel: the running flag is cleared and the
    dispatcher task receives a cancellation request; table, futures and call
    frames are untouched.  If the task had already ended the call returns at
    once; otherwise it is suspended on the task and cannot be resumed before
    the task has ended, which the task does in its next slice, after which
    [stop] returns, still with table, futures and frames untouched.  A call
    that was waiting on a pending future is still waiting after [stop], sees
    no exception, and once its own deadline is reached times out and returns
    the notice.  In general a suspended [stop] is resumed only when the
    awaited task is done. *)
Theorem stop_cancels_and_awaits_dispatcher w k t :
  _task (self w) = Some k → tasks w !! k = Some t →
  ∃ w1, stop w = Some w1 ∧
    _running (self w1) = false ∧
    tasks w1 = <[k := task_cancel t]> (tasks w) ∧
    table w1 = table w ∧ futures w1 = futures w ∧ calls w1 = calls w ∧
    now w1 = now w ∧
    (if task_done t
     then stops w1 = stops w ++ [STOP_RETURN]
     else stops w1 = stops w ++ [STOP_AWAIT_TASK k] ∧
          stop_resume (length (stops w)) w1 = None ∧
          ∃ w2 w3 t',
            _listen_outbound_step k w1 = Some w2 ∧
            tasks w2 !! k = Some t' ∧ task_done t' = true ∧
            stop_resume (length (stops w)) w2 = Some w3 ∧
            stops w3 = stops w ++ [STOP_RETURN] ∧
            table w3 = table w ∧ futures w3 = futures w ∧ calls w3 = calls w) ∧
    (∀ s w' w'', stop_resume s w' = Some w'' →
       ∃ k' t', stops w' !! s = Some (STOP_AWAIT_TASK k') ∧
                tasks w' !! k' = Some t' ∧ task_done t' = true) ∧
    (∀ c fr, calls w !! c = Some fr → Call.status fr = AWAIT_WAIT_FOR →
       futures w !! Call.response_future fr = Some PENDING →
       calls w1 !! c = Some fr ∧ wait_for fr w1 = None ∧
       send_message_resume c w1 = None ∧
       (Qle_bool (Call.deadline fr) (now w1) = true →
        ∃ w2 w3, wait_for_timeout c w1 = Some w2 ∧
                 send_message_resume c w2 = Some w3 ∧
                 calls w3 !! c =
                   Some (Call.set_status (RETURN (PyStr TIMEOUT_NOTICE)) fr))).
Proof.
  intros Htask Hk.
  assert (k < length (tasks w)) as Hlt by by eapply lookup_lt_Some.
  unfold stop. cbn. rewrite Htask, Hk. cbn.
  destruct (task_done t) eqn:Hd; eexists; (split; [reflexivity|]);
    (split_and!; try done).
  - intros s w' w'' (k' & t' & ? & ? & ? & _)%stop_resume_Some. by exists k', t'.
  - intros c fr Hc Hs Hf. by apply (still_waiting w).
  - unfold stop_resume. cbn. rewrite lookup_app_r, Nat.sub_diag by done. cbn.
    rewrite list_lookup_insert_eq by done. cbn. unfold task_cancel. rewrite Hd.
    unfold task_done in *. cbn. by destruct (t_state t).
  - unfold task_cancel, _listen_outbound_step. rewrite Hd. cbn.
    rewrite list_lookup_insert_eq by done. cbn.
    unfold task_done in Hd. destruct (t_state t) eqn:Hts; try done.
    + do 3 eexists. split; [reflexivity|]. cbn.
      split; [apply list_lookup_insert_eq; by rewrite length_insert|].
      split; [done|]. unfold stop_resume. cbn.
      rewrite lookup_app_r, Nat.sub_diag by done. cbn.
      rewrite list_lookup_insert_eq by by rewrite length_insert. cbn.
      split; [reflexivity|]. cbn. split_and!; try done.
      rewrite insert_app_r_alt, Nat.sub_diag by done. done.
    + do 3 eexists. split; [reflexivity|]. cbn.
      split; [apply list_lookup_insert_eq; by rewrite length_insert|].
      split; [done|]. unfold stop_resume. cbn.
      rewrite lookup_app_r, Nat.sub_diag by done. cbn.
      rewrite list_lookup_insert_eq by by rewrite length_insert. cbn.
      split; [reflexivity|]. cbn. split_and!; try done.
      rewrite insert_app_r_alt, Nat.sub_diag by done. done.
  - intros s w' w'' (k' & t' & ? & ? & ? & _)%stop_resume_Some. by exists k', t'.
  - intros c fr Hc Hs Hf. by apply (still_waiting w).
Qed.


(** C9.  [send_message] for a thread_id that already has a waiter in the
    table: the call goes through like any other (a new frame, suspended in
    the wait, on a fresh pending future); the entry now points at the new
    future, which is not the old one; the table has as many entries as
    before and the same keys, its other entries are unchanged, and the old
    future is left as it was. *)
Theorem send_message_overwrites_entry w text user_id timeout old :
  table w !! ("http-" +:+ user_id) = Some old → is_Some (futures w !! old) →
  let w' := send_message text user_id timeout w in
  let new := length (futures w) in
  step (EvSend text user_id timeout) w = Some w' ∧
  table w' !! ("http-" +:+ user_id) = Some new ∧ new ≠ old ∧
  futures w' !! new = Some PENDING ∧ futures w' !! old = futures w !! old ∧
  size (table w') = size (table w) ∧ dom (table w') = dom (table w) ∧
  (∀ tid, tid ≠ "http-" +:+ user_id → table w' !! tid = table w !! tid) ∧
  ∃ fr, calls w' = calls w ++ [fr] ∧ Call.response_future fr = new ∧
        Call.thread_id fr = "http-" +:+ user_id ∧ Call.status fr = AWAIT_WAIT_FOR.
Proof.
  intros Hold Hfut%lookup_lt_is_Some w' new. subst w' new. cbn. split_and!.
  - done.
  - apply lookup_insert_eq.
  - lia.
  - by apply list_lookup_middle.
  - by apply lookup_app_l.
  - by apply map_size_insert_Some.
  - by apply dom_insert_lookup_L.
  - intros tid Hne. by apply lookup_insert_ne.
  - by eexists.
Qed.

(** *** stop without start *)

Lemma self_loop_head k w : self (loop_head k w) = self w.
Proof. unfold loop_head. by destruct (_running (self w)). Qed.

Lemma self_loop_except k e w : self (loop_except k e w) = self w.
Proof. destruct e; cbn; try done; by rewrite self_loop_head. Qed.

(** Only [start] assigns [_task]. *)
Lemma step_task ev w w' :
  step ev w = Some w' → ev ≠ EvStart → _task (self w') = _task (self w).
Proof.
  intros Hstep Hev. destruct ev; cbn in Hstep; try done.
  - unfold stop in Hstep. cbn in Hstep.
    destruct (_task (self w)) as [k|] eqn:Ht; cbn in Hstep.
    + destruct (tasks w !! k) as [t|]; [cbn in Hstep|done].
      destruct (task_done t); injection Hstep as <-; done.
    + injection Hstep as <-. done.
  - apply stop_resume_Some in Hstep as (? & ? & _ & _ & _ & ->). done.
  - injection Hstep as <-. done.
  - unfold wait_for_timeout in Hstep.
    destruct (calls w !! c) as [fr|]; [cbn in Hstep|done].
    destruct (futures w !! Call.response_future fr) as [fu|]; [cbn in Hstep|done].
    destruct (Call.status fr); try done. destruct fu; try done.
    destruct (timer_due _ _); [|done]. injection Hstep as <-. done.
  - unfold send_message_resume in Hstep.
    destruct (calls w !! c) as [fr|]; [cbn in Hstep|done].
    destruct (wait_for fr w) as [[v|e]|]; [| |done]; cbn in Hstep; injection Hstep as <-;
      [done|]. by destruct e.
  - unfold _listen_outbound_step in Hstep.
    destruct (tasks w !! k) as [[ts mc]|]; [cbn in Hstep|done].
    destruct ts; try done.
    + destruct mc; injection Hstep as <-; [done|by rewrite self_loop_head].
    + destruct mc; [injection Hstep as <-; done|].
      destruct (get_outbound_message (bus (self w))) as [[msg b]|]; [cbn in Hstep|done].
      destruct (on_outbound msg (with_self (set_bus b) w)) as [w1 r] eqn:Hon.
      apply on_outbound_calls in Hon as (_ & _ & _ & _ & _ & _ & _ & Ht).
      destruct r; injection Hstep as <-;
        by rewrite ?self_loop_head, ?self_loop_except, Ht.
  - injection Hstep as <-. done.
  - destruct (get_inbound_message _) as [[? b]|]; [cbn in Hstep|done].
    injection Hstep as <-. done.
  - destruct (Qle_bool 0 dt); [|done]. injection Hstep as <-. done.
Qed.

Lemma run_task evs w w' :
  run evs w = Some w' → EvStart ∉ evs → _task (self w') = _task (self w).
Proof.
  revert w. induction evs as [|ev evs IH]; intros w; cbn.
  - by intros [= <-].
  - destruct (step ev w) as [w1|] eqn:Hstep; [cbn|done].
    intros Hrun [Hev Hevs]%not_elem_of_cons.
    rewrite (IH _ Hrun Hevs). eapply step_task; [done|congruence].
Qed.

(** C10.  On a channel whose [start] was never executed, [_task] is still
    None, the cancel/await branch of [stop] is skipped and the call returns
    at once: the running flag is cleared, the final log line is written, and
    table, tasks, futures, call frames and bus are as before. *)
Theorem stop_without_start evs w :
  EvStart ∉ evs → run evs init = Some w →
  _task (self w) = None ∧
  ∃ w', stop w = Some w' ∧
    stops w' = stops w ++ [STOP_RETURN] ∧
    _running (self w') = false ∧ _task (self w') = None ∧
    log w' = log w ++ [INFO "HTTP channel stopped"] ∧
    table w' = table w ∧ bus (self w') = bus (self w) ∧
    tasks w' = tasks w ∧ futures w' = futures w ∧ calls w' = calls w.
Proof.
  intros Hevs Hrun.
  assert (_task (self w) = None) as Ht by by rewrite (run_task _ _ _ Hrun Hevs).
  split; [done|]. unfold stop. cbn. rewrite Ht. eexists. split; [reflexivity|].
  cbn. by split_and!.
Qed.

(** ** Further properties of the channel *)

(** *** Replies and resumptions, step by step *)

(** The dispatcher's slice on a reply whose thread_id has a pending waiter. *)
Lemma dispatch_reply k w tid txt rest i :
  tasks w !! k = Some (mkTask T_AWAIT_GET false) →
  outbound (bus (self w)) = OutboundMessage.make tid txt :: rest →
  table w !! tid = Some i → futures w !! i = Some PENDING →
  ∃ w', _listen_outbound_step k w = Some w' ∧
    table w' = delete tid (table w) ∧
    futures w' = <[i := FINISHED (PyStr txt)]> (futures w) ∧
    calls w' = calls w ∧
    tasks w' = <[k := mkTask (if _running (self w) then T_AWAIT_GET else T_RETURNED)
                         false]> (tasks w) ∧
    outbound (bus (self w')) = rest ∧
    inbound (bus (self w')) = inbound (bus (self w)) ∧
    _running (self w') = _running (self w) ∧ _task (self w') = _task (self w) ∧
    log w' = log w ∧ now w' = now w.
Proof.
  intros Hk Hq Ht Hf.
  rewrite (listen_outbound_step_message k w _ rest Hk Hq).
  erewrite on_outbound_pending by done.
  eexists. split; [reflexivity|].
  match goal with |- context [loop_head k ?x] =>
    destruct (loop_head_fields k x) as (-> & -> & -> & -> & -> & _ & ->) end.
  by split_and!.
Qed.

Lemma resume_reply w c fr v :
  calls w !! c = Some fr → Call.status fr = AWAIT_WAIT_FOR →
  futures w !! Call.response_future fr = Some (FINISHED v) →
  send_message_resume c w =
    Some (with_calls (<[c := Call.set_status (RETURN v) fr]>) w).
Proof.
  intros Hc Hs Hf. unfold send_message_resume, wait_for. rewrite Hc. cbn.
  by rewrite Hs, Hf.
Qed.

(** X3.  In every reachable world each table entry belongs to a call that
    is still suspended: the key is "http-" followed by that call's user id,
    the value is that call's own future, the call is either waiting on the
    pending future or timed out with the future cancelled (never returned),
    and no later call uses the same thread_id. *)
Theorem table_entries_are_live w tid f :
  reachable w → table w !! tid = Some f →
  ∃ fr, calls w !! f = Some fr ∧ Call.response_future fr = f ∧
        tid = Call.thread_id fr ∧ tid = "http-" +:+ Call.user_id fr ∧
        (Call.status fr = AWAIT_WAIT_FOR ∧ futures w !! f = Some PENDING ∨
         Call.status fr = TIMEOUT_SCHEDULED ∧ futures w !! f = Some CANCELLED) ∧
        ∀ c fr', calls w !! c = Some fr' → Call.thread_id fr' = tid → c ≤ f.
Proof.
  intros HI%reachable_Inv Ht.
  destruct (inv_entry _ HI _ _ Ht) as ((fr & Hfr & Htid) & Hfut & Hnew).
  destruct (inv_call _ HI _ _ Hfr) as (Hrf & _ & Huid).
  pose proof (inv_status _ HI _ _ Hfr) as Hst.
  exists fr. split_and!; try done; [congruence|].
  destruct (Call.status fr); try done.
  - left. split; [done|]. destruct Hst as [?|[v ?]]; [done|].
    destruct Hfut; congruence.
  - by right.
  - rewrite Htid in Hst. done.
Qed.

(** X5.  In a reachable world a step completes the waiter of a call only if
    no later call has been made for the same thread_id: of several
    concurrent calls of one user, a reply is delivered to the latest. *)
Theorem reply_goes_to_latest_call w ev w' c fr v :
  reachable w → step ev w = Some w' → calls w !! c = Some fr →
  futures w !! c = Some PENDING → futures w' !! c = Some (FINISHED v) →
  ∀ c' fr', calls w !! c' = Some fr' → Call.thread_id fr' = Call.thread_id fr →
            c' ≤ c.
Proof.
  intros HI%reachable_Inv Hstep Hc Hp Hfin c' fr' Hc' Htid.
  destruct (step_futures _ _ _ _ _ Hstep Hp)
    as [?|[(_ & ? & _)|(_ & k & msg & rest & tid & v' & _ & _ & _ & _ & Ht & _)]];
    [congruence..|].
  destruct (inv_entry _ HI _ _ Ht) as ((fr0 & Hfr0 & Htid0) & _ & Hnew).
  apply (Hnew c' fr'); [done|]. congruence.
Qed.

(** Under the invariant the only exceptions of [on_outbound] come from the
    message itself. *)
Lemma on_outbound_raises msg w w1 e :
  Inv w → on_outbound msg w = (w1, Raise e) →
  (OutboundMessage.thread_id msg = None ∧
   e = AttributeError ("'" +:+ OutboundMessage.class_name msg +:+
                       "' object has no attribute 'thread_id'")) ∨
  ((∃ l, OutboundMessage.thread_id msg = Some (PyList l)) ∧
   e = TypeError "unhashable type: 'list'") ∨
  (OutboundMessage.text msg = None ∧
   e = AttributeError ("'" +:+ OutboundMessage.class_name msg +:+
                       "' object has no attribute 'text'")).
Proof.
  intros HI. unfold on_outbound, getattr, dict_contains.
  destruct (OutboundMessage.thread_id msg) as [[tid| | |l]|]; cbn.
  - destruct (table w !! tid) as [f|] eqn:Hf; cbn; rewrite ?Hf; cbn;
      [|by intros [_ [=]]%pair_equal_spec].
    destruct (inv_entry _ HI _ _ Hf) as (_ & [Hfu|Hfu] & _); rewrite Hfu; cbn.
    + destruct (OutboundMessage.text msg); cbn; intros [_ [=]]%pair_equal_spec.
      subst. auto.
    + by intros [_ [=]]%pair_equal_spec.
  - by intros [_ [=]]%pair_equal_spec.
  - by intros [_ [=]]%pair_equal_spec.
  - intros [_ [= <-]]%pair_equal_spec. right. left. split; [by eexists|done].
  - intros [_ [= <-]]%pair_equal_spec. by left.
Qed.

(** X6.  In a reachable world the dispatcher handles a genuine
    OutboundMessage without any exception, whatever the state of the waiter:
    nothing is logged, and [set_result] is never called on a future that is
    done.  For an object each of whose two attributes is missing or holds a
    string, an integer, None or a list, the only exceptions are the
    AttributeError of a missing attribute, with Python's text for the class
    of the object, and the TypeError of a list as thread_id: [pop] never
    raises KeyError and [set_result] never raises InvalidStateError. *)
Theorem dispatcher_raises_only_on_malformed k w msg rest :
  reachable w → tasks w !! k = Some (mkTask T_AWAIT_GET false) →
  outbound (bus (self w)) = msg :: rest →
  ∃ w1 r w',
    on_outbound msg (with_self (set_bus (mkBus (inbound (bus (self w))) rest)) w)
      = (w1, r) ∧
    _listen_outbound_step k w = Some w' ∧
    match r with
    | Ok _ => log w' = log w
    | Raise e =>
        (OutboundMessage.thread_id msg = None ∧
         e = AttributeError ("'" +:+ OutboundMessage.class_name msg +:+
                             "' object has no attribute 'thread_id'")) ∨
        ((∃ l, OutboundMessage.thread_id msg = Some (PyList l)) ∧
         e = TypeError "unhashable type: 'list'") ∨
        (OutboundMessage.text msg = None ∧
         e = AttributeError ("'" +:+ OutboundMessage.class_name msg +:+
                             "' object has no attribute 'text'"))
    end ∧
    ((∃ tid txt, msg = OutboundMessage.make tid txt) → r = Ok ()).
Proof.
  intros HI%reachable_Inv Hk Hq.
  pose proof (listen_outbound_step_message k w msg rest Hk Hq) as Hstep.
  assert (Inv (with_self (set_bus (mkBus (inbound (bus (self w))) rest)) w)) as HI0
    by (eapply Inv_core; [|exact HI]; done).
  destruct (on_outbound msg (with_self (set_bus (mkBus (inbound (bus (self w))) rest)) w))
    as [w1 r] eqn:Hon.
  exists w1, r. eexists. split; [done|]. split; [exact Hstep|].
  destruct r as [[]|e].
  - split; [|done].
    destruct (loop_head_fields k w1) as (_ & _ & _ & _ & -> & _).
    by destruct (on_outbound_calls _ _ _ _ Hon) as (_ & _ & _ & _ & -> & _).
  - pose proof (on_outbound_raises _ _ _ _ HI0 Hon) as Hr. split; [done|].
    intros (tid & txt & ->).
    destruct Hr as [[[=] _]|[[[l [=]] _]|[[=] _]]].
Qed.

(** *** A case analysis of one step *)

(** Splits a hypothesis [step ev w = Some w'] into the paths through the
    code, one goal per path, with [w'] replaced by the world it builds. *)
Ltac step_paths H :=
  cbn in H;
  unfold stop, stop_resume, wait_for_timeout, send_message_resume, wait_for,
    _listen_outbound_step, get_outbound_message, get_inbound_message in H;
  cbn in H;
  repeat first
    [ discriminate H
    | match type of H with
      | context [mbind _ ?x] => destruct x eqn:?; cbn in H
      | context [match ?x with _ => _ end] => destruct x eqn:?; cbn in H
      end ];
  try (injection H as <-).

Lemma loop_except_fields k e w :
  self (loop_except k e w) = self w ∧ futures (loop_except k e w) = futures w ∧
  calls (loop_except k e w) = calls w ∧ stops (loop_except k e w) = stops w ∧
  now (loop_except k e w) = now w.
Proof.
  destruct e; cbn; try done;
    match goal with |- context [loop_head k ?x] =>
      by destruct (loop_head_fields k x) as (_ & -> & -> & -> & _ & -> & ->) end.
Qed.

(** How one step changes the frame of invocation [c]: not at all, or it
    gives up waiting, or it is resumed. *)
Lemma step_calls ev w w' c fr :
  step ev w = Some w' → calls w !! c = Some fr →
  (calls w' !! c = Some fr ∧ ev ≠ EvTimer c ∧ ev ≠ EvResume c) ∨
  (ev = EvTimer c ∧ Call.status fr = AWAIT_WAIT_FOR ∧
   futures w !! Call.response_future fr = Some PENDING ∧
   timer_due (Call.deadline fr) (now w) = true ∧
   futures w' !! Call.response_future fr = Some CANCELLED ∧
   calls w' !! c = Some (Call.set_status TIMEOUT_SCHEDULED fr)) ∨
  (ev = EvResume c ∧
   ((Call.status fr = TIMEOUT_SCHEDULED ∧
     calls w' !! c = Some (Call.set_status (RETURN (PyStr TIMEOUT_NOTICE)) fr)) ∨
    (Call.status fr = AWAIT_WAIT_FOR ∧
     ∃ v, futures w !! Call.response_future fr = Some (FINISHED v) ∧
          calls w' !! c = Some (Call.set_status (RETURN v) fr)) ∨
    (Call.status fr = AWAIT_WAIT_FOR ∧
     futures w !! Call.response_future fr = Some CANCELLED ∧
     calls w' !! c = Some (Call.set_status (RAISE CancelledError) fr)))).
Proof.
  intros Hstep Hc.
  assert (c < length (calls w)) as Hlt by by eapply lookup_lt_Some.
  destruct ev as [| | | | c0 | c0 | | | |];
    [step_paths Hstep..| | |step_paths Hstep|step_paths Hstep|step_paths Hstep
    |step_paths Hstep].
  all: try (left; split_and!; [exact Hc|done|done]).
  - left. split_and!; [|done..]. cbn. by rewrite lookup_app_l.
  - cbn in Hstep. unfold wait_for_timeout in Hstep.
    destruct (decide (c0 = c)) as [->|Hne].
    + rewrite Hc in Hstep. cbn in Hstep.
      destruct (futures w !! Call.response_future fr) as [fu|] eqn:Hfu;
        [cbn in Hstep|done].
      destruct (Call.status fr) eqn:Hs; try done. destruct fu; try done.
      destruct (timer_due _ _) eqn:Hd; [|done]. injection Hstep as <-.
      right. left. cbn. split_and!; try done.
      * apply list_lookup_insert_eq. by eapply lookup_lt_Some.
      * by apply list_lookup_insert_eq.
    + destruct (calls w !! c0) as [fr0|]; [cbn in Hstep|done].
      destruct (futures w !! Call.response_future fr0) as [fu|]; [cbn in Hstep|done].
      destruct (Call.status fr0); try done. destruct fu; try done.
      destruct (timer_due _ _); [|done]. injection Hstep as <-.
      left. cbn. rewrite list_lookup_insert_ne by done. split_and!; [done| |done].
      congruence.
  - cbn in Hstep. unfold send_message_resume, wait_for in Hstep.
    destruct (decide (c0 = c)) as [->|Hne].
    + rewrite Hc in Hstep. cbn in Hstep. right. right. split; [done|].
      destruct (Call.status fr) eqn:Hs; try done.
      * destruct (futures w !! Call.response_future fr) as [[|v|]|] eqn:Hf;
          try done; cbn in Hstep; injection Hstep as <-.
        -- right. left. split; [done|]. exists v. split; [done|]. cbn.
           by apply list_lookup_insert_eq.
        -- right. right. split_and!; try done. cbn. by apply list_lookup_insert_eq.
      * cbn in Hstep. injection Hstep as <-. left. split; [done|]. cbn.
        by apply list_lookup_insert_eq.
    + destruct (calls w !! c0) as [fr0|]; [cbn in Hstep|done].
      left. split_and!; [|done|congruence].
      destruct (match Call.status fr0 with AWAIT_WAIT_FOR => _ | _ => _ end)
        as [[v|[]]|]; [..|done]; cbn in Hstep; injection Hstep as <-; cbn;
        by rewrite list_lookup_insert_ne.
  - left. split_and!; [|done..].
    by destruct (loop_head_fields k w) as (_ & _ & _ & -> & _).
  - left. split_and!; [|done..].
    destruct (loop_head_fields k w0) as (_ & _ & _ & -> & _).
    by match goal with H : on_outbound _ _ = _ |- _ =>
      apply on_outbound_calls in H as (-> & _) end.
  - left. split_and!; [|done..].
    destruct (loop_except_fields k e w0) as (_ & _ & -> & _).
    by match goal with H : on_outbound _ _ = _ |- _ =>
      apply on_outbound_calls in H as (-> & _) end.
  - left. split_and!; [|done..].
    by destruct (loop_head_fields k w) as (_ & _ & _ & -> & _).
Qed.

(** A table entry that a step leaves behind was there before, or points at
    the future the step has just allocated. *)
Lemma step_table ev w w' tid f :
  step ev w = Some w' → table w' !! tid = Some f →
  table w !! tid = Some f ∨ f = length (futures w).
Proof.
  intros Hstep. destruct ev; step_paths Hstep.
  all: try (by left).
  - cbn. intros [[_ <-]|[_ ?]]%lookup_insert_Some; [by right|by left].
  - destruct r as [v|[]]; cbn; try (by left).
    intros [_ ?]%lookup_delete_Some. by left.
  - rewrite self_loop_head. by left.
  - rewrite self_loop_head.
    match goal with H : on_outbound _ _ = _ |- _ =>
      apply on_outbound_cases in H
        as [_ [[-> _]|(tid0 & f0 & _ & _ & [[-> _]|(v & _ & _ & _ & ->)])]] end; cbn;
      try (by left); intros [_ ?]%lookup_delete_Some; by left.
  - rewrite self_loop_except.
    match goal with H : on_outbound _ _ = _ |- _ =>
      apply on_outbound_cases in H
        as [_ [[-> _]|(tid0 & f0 & _ & _ & [[-> _]|(v & _ & _ & _ & ->)])]] end; cbn;
      try (by left); intros [_ ?]%lookup_delete_Some; by left.
  - rewrite self_loop_head. by left.
Qed.

(** *** Calls that no reply can reach *)

Lemma unanswerable_step ev w w' c fr :
  Inv w → Call.status fr = AWAIT_WAIT_FOR → step ev w = Some w' →
  unanswerable c fr w → unanswerable c fr w'.
Proof.
  intros HI Hs Hstep [Hno Hst].
  assert (c < length (futures w)) as Hlt.
  { destruct Hst as [[_ ?]|[[_ ?]|[_ ?]]]; by eapply lookup_lt_Some. }
  split.
  { intros Ht'. destruct (step_table _ _ _ _ _ Hstep Ht') as [?|?]; [done|lia]. }
  destruct Hst as [[Hc Hf]|[[Hc Hf]|[Hc Hf]]].
  - destruct (inv_call _ HI _ _ Hc) as (Hrf & _).
    destruct (step_calls _ _ _ _ _ Hstep Hc)
      as [(Hc' & Hnt & Hnr)|[(-> & _ & _ & _ & Hf' & Hc')|(-> & [[? _]|[[_ (v & ? & _)]|[_ [? _]]]])]];
      rewrite ?Hrf in *; try congruence.
    + left. split; [done|].
      destruct (step_futures _ _ _ _ _ Hstep Hf)
        as [?|[(_ & _ & c0 & fr0 & -> & Hc0 & Hrf0)
              |(_ & k & msg & rest & tid & v & _ & _ & _ & _ & Ht & _)]]; [done|..].
      * destruct (inv_call _ HI _ _ Hc0) as (Hrf0' & _). congruence.
      * destruct (inv_entry _ HI _ _ Ht) as ((fr0 & Hfr0 & <-) & _). congruence.
    + right. left. done.
  - set (fr1 := Call.set_status TIMEOUT_SCHEDULED fr) in *.
    assert (futures w' !! c = Some CANCELLED) as Hf'
      by by eapply step_futures_done.
    destruct (step_calls _ _ _ _ _ Hstep Hc)
      as [(Hc' & _)|[(_ & ? & _)|(_ & [[_ Hc']|[[? _]|[? _]]])]]; try done.
    + right. left. done.
    + right. right. done.
  - set (fr1 := Call.set_status (RETURN (PyStr TIMEOUT_NOTICE)) fr) in *.
    assert (futures w' !! c = Some CANCELLED) as Hf'
      by by eapply step_futures_done.
    destruct (step_calls _ _ _ _ _ Hstep Hc)
      as [(Hc' & _)|[(_ & ? & _)|(_ & [[? _]|[[? _]|[? _]]])]]; try done.
    right. right. done.
Qed.

Lemma unanswerable_run evs w w' c fr :
  Inv w → Call.status fr = AWAIT_WAIT_FOR → run evs w = Some w' →
  unanswerable c fr w → unanswerable c fr w'.
Proof.
  revert w. induction evs as [|ev evs IH]; intros w HI Hs; cbn.
  - by intros [= <-].
  - destruct (step ev w) as [w1|] eqn:Hstep; [cbn|done]. intros Hrun Hun.
    eapply IH; [by eapply Inv_step|done|done|by eapply unanswerable_step].
Qed.

(** X4.  A waiting call whose waiter is not (or no longer) the table entry
    of its thread_id, because a later call overwrote the entry or something
    removed it, is never answered: on every continuation no entry points at
    its waiter, its future is never completed with a result, and the only
    value the call can return is the timeout notice. *)
Theorem overwritten_call_only_times_out w c fr evs w' :
  reachable w → calls w !! c = Some fr → Call.status fr = AWAIT_WAIT_FOR →
  futures w !! c = Some PENDING → table w !! Call.thread_id fr ≠ Some c →
  run evs w = Some w' →
  unanswerable c fr w' ∧
  (∀ v, futures w' !! c ≠ Some (FINISHED v)) ∧
  ∃ fr', calls w' !! c = Some fr' ∧
         ∀ v, Call.status fr' = RETURN v → v = PyStr TIMEOUT_NOTICE.
Proof.
  intros HI%reachable_Inv Hc Hs Hf Hno Hrun.
  assert (unanswerable c fr w') as Hun.
  { eapply unanswerable_run; [exact HI|done|exact Hrun|]. split; [done|by left]. }
  split; [done|].
  destruct Hun as [_ [[Hc' Hf']|[[Hc' Hf']|[Hc' Hf']]]];
    (split; [intros v; congruence|]); eexists; (split; [exact Hc'|]); cbn;
    intros v; congruence.
Qed.

(** *** Lifecycle and dispatching *)

Lemma run_cons ev evs w w1 w' :
  step ev w = Some w1 → run evs w1 = Some w' → run (ev :: evs) w = Some w'.
Proof. intros Hs Hr. cbn. by rewrite Hs. Qed.

(** The first slice of a dispatcher that was not cancelled before it ran:
    it enters the loop and suspends in the get (or returns, if the channel
    was stopped meanwhile). *)
Lemma first_slice k w :
  tasks w !! k = Some (mkTask T_CREATED false) →
  ∃ w', _listen_outbound_step k w = Some w' ∧
    tasks w' = <[k := mkTask (if _running (self w) then T_AWAIT_GET else T_RETURNED)
                         false]> (tasks w) ∧
    self w' = self w ∧ futures w' = futures w ∧ calls w' = calls w.
Proof.
  intros Hk. unfold _listen_outbound_step. rewrite Hk. cbn.
  eexists. split; [reflexivity|].
  by destruct (loop_head_fields k w) as (-> & -> & -> & -> & _).
Qed.

(** [stop] with a task that has not ended yet. *)
Lemma stop_pending_task w k t :
  _task (self w) = Some k → tasks w !! k = Some t → task_done t = false →
  stop w = Some (with_stops (λ ss, ss ++ [STOP_AWAIT_TASK k])
                  (with_tasks (<[k := mkTask (t_state t) true]>)
                     (with_self (set_running false) w))).
Proof.
  intros Htask Hk Hd. unfold stop. cbn. rewrite Htask, Hk. cbn.
  unfold task_cancel. by rewrite Hd.
Qed.

(** X1.  A call that was made while no dispatcher was running (before
    [start], or between [stop] and a new [start]) is not lost: [start]
    creates a task whose first slice suspends it in the get and whose next
    slice, with the call's reply at the head of the outbound queue, completes
    the call's waiter, so that the resumed call returns the reply's text. *)
Theorem start_serves_earlier_calls w c fr txt rest :
  calls w !! c = Some fr → Call.status fr = AWAIT_WAIT_FOR →
  table w !! Call.thread_id fr = Some (Call.response_future fr) →
  futures w !! Call.response_future fr = Some PENDING →
  outbound (bus (self w)) = OutboundMessage.make (Call.thread_id fr) txt :: rest →
  ∃ w', run [EvStart; EvDispatch (length (tasks w)); EvDispatch (length (tasks w));
             EvResume c] w = Some w' ∧
    calls w' !! c = Some (Call.set_status (RETURN (PyStr txt)) fr) ∧
    _task (self w') = Some (length (tasks w)) ∧ _running (self w') = true ∧
    tasks w' !! length (tasks w) = Some (mkTask T_AWAIT_GET false) ∧
    table w' !! Call.thread_id fr = None ∧ outbound (bus (self w')) = rest.
Proof.
  intros Hc Hs Ht Hf Hq. set (k := length (tasks w)).
  assert (tasks (start w) !! k = Some (mkTask T_CREATED false)) as Hk1
    by (cbn; by apply list_lookup_middle).
  destruct (first_slice k (start w) Hk1) as (w2 & Hstep2 & Htasks2 & Hself2 & Hfut2 & Hcalls2).
  assert (tasks w2 !! k = Some (mkTask T_AWAIT_GET false)) as Hk2.
  { rewrite Htasks2. cbn. apply list_lookup_insert_eq. rewrite length_app. cbn. lia. }
  destruct (dispatch_reply k w2 (Call.thread_id fr) txt rest (Call.response_future fr))
    as (w3 & Hstep3 & Htab3 & Hfut3 & Hcalls3 & Htasks3 & Hq3 & _ & Hrun3 & Htask3 & _);
    [done|by rewrite Hself2|by rewrite Hself2|by rewrite Hfut2|].
  assert (send_message_resume c w3 =
            Some (with_calls (<[c := Call.set_status (RETURN (PyStr txt)) fr]>) w3))
    as Hstep4.
  { apply resume_reply; [by rewrite Hcalls3, Hcalls2|done|].
    rewrite Hfut3, Hfut2. cbn. apply list_lookup_insert_eq. by eapply lookup_lt_Some. }
  eexists. split.
  { eapply run_cons; [reflexivity|]. eapply run_cons; [exact Hstep2|].
    eapply run_cons; [exact Hstep3|]. eapply run_cons; [exact Hstep4|reflexivity]. }
  cbn. split_and!.
  - apply list_lookup_insert_eq. rewrite Hcalls3, Hcalls2. by eapply lookup_lt_Some.
  - by rewrite Htask3, Hself2.
  - by rewrite Hrun3, Hself2.
  - rewrite Htasks3, Hself2. cbn. apply list_lookup_insert_eq.
    rewrite Htasks2, length_insert. cbn. rewrite length_app. cbn. lia.
  - rewrite Htab3. apply lookup_delete_eq.
  - done.
Qed.

(** X2.  [stop] cancels only the task that the latest [start] stored in
    [_task].  After a second [start] and a [stop], the dispatcher of the
    first [start] is still suspended in its get with no cancellation
    requested: on an empty queue it stays there, and when a reply arrives it
    still delivers it and only then leaves the loop. *)
Theorem stop_leaves_earlier_dispatcher w k0 :
  tasks w !! k0 = Some (mkTask T_AWAIT_GET false) →
  ∃ w2, run [EvStart; EvStop] w = Some w2 ∧
    _task (self w2) = Some (length (tasks w)) ∧ _running (self w2) = false ∧
    tasks w2 !! length (tasks w) = Some (mkTask T_CREATED true) ∧
    tasks w2 !! k0 = Some (mkTask T_AWAIT_GET false) ∧
    table w2 = table w ∧ futures w2 = futures w ∧ bus (self w2) = bus (self w) ∧
    (outbound (bus (self w2)) = [] → _listen_outbound_step k0 w2 = None) ∧
    (∀ tid txt rest i,
       outbound (bus (self w2)) = OutboundMessage.make tid txt :: rest →
       table w2 !! tid = Some i → futures w2 !! i = Some PENDING →
       ∃ w3, _listen_outbound_step k0 w2 = Some w3 ∧
             futures w3 !! i = Some (FINISHED (PyStr txt)) ∧
             table w3 !! tid = None ∧
             tasks w3 !! k0 = Some (mkTask T_RETURNED false)).
Proof.
  intros Hk0. set (k1 := length (tasks w)).
  assert (k0 < k1) as Hlt by by eapply lookup_lt_Some.
  assert (stop (start w) = Some
            (with_stops (λ ss, ss ++ [STOP_AWAIT_TASK k1])
               (with_tasks (<[k1 := mkTask T_CREATED true]>)
                  (with_self (set_running false) (start w))))) as Hstop.
  { apply (stop_pending_task (start w) k1 (mkTask T_CREATED false)); [done| |done].
    cbn. by apply list_lookup_middle. }
  eexists. split; [eapply run_cons; [reflexivity|]; eapply run_cons; [exact Hstop|reflexivity]|].
  assert (tasks (with_stops (λ ss, ss ++ [STOP_AWAIT_TASK k1])
               (with_tasks (<[k1 := mkTask T_CREATED true]>)
                  (with_self (set_running false) (start w)))) !! k0
          = Some (mkTask T_AWAIT_GET false)) as Hk0'.
  { cbn. rewrite list_lookup_insert_ne by lia. by rewrite lookup_app_l. }
  split_and!; try done.
  - cbn. apply list_lookup_insert_eq. rewrite length_app. cbn. lia.
  - intros Hq. unfold _listen_outbound_step, get_outbound_message.
    rewrite Hk0'. cbn in *. by rewrite Hq.
  - intros tid txt rest i Hq Ht Hf.
    destruct (dispatch_reply k0 _ tid txt rest i Hk0' Hq Ht Hf)
      as (w3 & Hstep3 & Htab3 & Hfut3 & _ & Htasks3 & _).
    exists w3. split_and!; [done| | |].
    + rewrite Hfut3. apply list_lookup_insert_eq. by eapply lookup_lt_Some.
    + rewrite Htab3. apply lookup_delete_eq.
    + rewrite Htasks3. cbn. apply list_lookup_insert_eq.
      rewrite length_insert, length_app. cbn. lia.
Qed.

Lemma Inv_entry_pending w tid c fr :
  Inv w → table w !! tid = Some c → calls w !! c = Some fr →
  Call.status fr = AWAIT_WAIT_FOR → futures w !! c = Some PENDING.
Proof.
  intros HI Ht Hc Hs. destruct (inv_entry _ HI _ _ Ht) as (_ & [?|Hcan] & _); [done|].
  pose proof (inv_status _ HI _ _ Hc) as Hst. rewrite Hs in Hst.
  destruct Hst as [?|[v ?]]; congruence.
Qed.

(** X7.  Calls of different users do not interfere.  Two waiting calls of
    distinct users, each registered in the table, and their two replies at
    the head of the outbound queue: after the dispatcher has handled both and
    the calls are resumed, each call has returned the text of the reply that
    carries its own thread_id. *)
Theorem replies_of_distinct_users w k c1 c2 fr1 fr2 txt1 txt2 rest :
  reachable w → calls w !! c1 = Some fr1 → calls w !! c2 = Some fr2 →
  Call.user_id fr1 ≠ Call.user_id fr2 →
  Call.status fr1 = AWAIT_WAIT_FOR → Call.status fr2 = AWAIT_WAIT_FOR →
  table w !! Call.thread_id fr1 = Some c1 → table w !! Call.thread_id fr2 = Some c2 →
  tasks w !! k = Some (mkTask T_AWAIT_GET false) → _running (self w) = true →
  outbound (bus (self w)) =
    OutboundMessage.make (Call.thread_id fr1) txt1
    :: OutboundMessage.make (Call.thread_id fr2) txt2 :: rest →
  ∃ w', run [EvDispatch k; EvDispatch k; EvResume c1; EvResume c2] w = Some w' ∧
    calls w' !! c1 = Some (Call.set_status (RETURN (PyStr txt1)) fr1) ∧
    calls w' !! c2 = Some (Call.set_status (RETURN (PyStr txt2)) fr2) ∧
    table w' !! Call.thread_id fr1 = None ∧ table w' !! Call.thread_id fr2 = None.
Proof.
  intros HI%reachable_Inv Hc1 Hc2 Hne Hs1 Hs2 Ht1 Ht2 Hk Hrun Hq.
  destruct (inv_call _ HI _ _ Hc1) as (Hrf1 & _ & Htid1).
  destruct (inv_call _ HI _ _ Hc2) as (Hrf2 & _ & Htid2).
  assert (Call.thread_id fr1 ≠ Call.thread_id fr2) as Htne.
  { rewrite Htid1, Htid2. intros Heq. by apply (inj (String.app "http-")) in Heq. }
  assert (c1 ≠ c2) as Hcne by congruence.
  assert (c1 < length (futures w) ∧ c2 < length (futures w)) as [Hl1 Hl2].
  { rewrite (inv_len _ HI). split; by eapply lookup_lt_Some. }
  pose proof (Inv_entry_pending _ _ _ _ HI Ht1 Hc1 Hs1) as Hf1.
  pose proof (Inv_entry_pending _ _ _ _ HI Ht2 Hc2 Hs2) as Hf2.
  destruct (dispatch_reply k w _ txt1 _ c1 Hk Hq Ht1 Hf1)
    as (wa & Hstepa & Htaba & Hfuta & Hcallsa & Htasksa & Hqa & _ & Hruna & _).
  assert (tasks wa !! k = Some (mkTask T_AWAIT_GET false)) as Hka.
  { rewrite Htasksa, Hrun. apply list_lookup_insert_eq. by eapply lookup_lt_Some. }
  destruct (dispatch_reply k wa _ txt2 rest c2 Hka Hqa)
    as (wb & Hstepb & Htabb & Hfutb & Hcallsb & _).
  { rewrite Htaba. by rewrite lookup_delete_ne. }
  { rewrite Hfuta. by rewrite list_lookup_insert_ne. }
  assert (send_message_resume c1 wb =
            Some (with_calls (<[c1 := Call.set_status (RETURN (PyStr txt1)) fr1]>) wb))
    as Hres1.
  { apply resume_reply; [by rewrite Hcallsb, Hcallsa|done|].
    rewrite Hrf1, Hfutb, Hfuta, list_lookup_insert_ne by done.
    by apply list_lookup_insert_eq. }
  assert (send_message_resume c2
            (with_calls (<[c1 := Call.set_status (RETURN (PyStr txt1)) fr1]>) wb) =
            Some (with_calls (<[c2 := Call.set_status (RETURN (PyStr txt2)) fr2]>)
                    (with_calls (<[c1 := Call.set_status (RETURN (PyStr txt1)) fr1]>) wb)))
    as Hres2.
  { apply resume_reply; [|done|].
    - cbn. rewrite list_lookup_insert_ne by done. by rewrite Hcallsb, Hcallsa.
    - cbn. rewrite Hrf2, Hfutb. apply list_lookup_insert_eq.
      by rewrite Hfuta, length_insert. }
  eexists. split.
  { eapply run_cons; [exact Hstepa|]. eapply run_cons; [exact Hstepb|].
    eapply run_cons; [exact Hres1|]. eapply run_cons; [exact Hres2|reflexivity]. }
  assert (c1 < length (calls wb) ∧ c2 < length (calls wb)) as [Hl1' Hl2'].
  { rewrite Hcallsb, Hcallsa. split; by eapply lookup_lt_Some. }
  cbn. split_and!.
  - rewrite list_lookup_insert_ne by done. by apply list_lookup_insert_eq.
  - apply list_lookup_insert_eq. by rewrite length_insert.
  - rewrite Htabb, Htaba. rewrite lookup_delete_ne by done. apply lookup_delete_eq.
  - rewrite Htabb. apply lookup_delete_eq.
Qed.

Lemma dispatch_textless k w msg tid rest i :
  tasks w !! k = Some (mkTask T_AWAIT_GET false) →
  outbound (bus (self w)) = msg :: rest →
  OutboundMessage.thread_id msg = Some (PyStr tid) →
  OutboundMessage.text msg = None →
  table w !! tid = Some i → futures w !! i = Some PENDING →
  ∃ w', _listen_outbound_step k w = Some w' ∧
    table w' = delete tid (table w) ∧ futures w' = futures w ∧ calls w' = calls w ∧
    log w' = log w ++
      [ERROR ("Error in HTTP outbound listener: '" +:+ OutboundMessage.class_name msg
              +:+ "' object has no attribute 'text'")] ∧
    tasks w' = <[k := mkTask (if _running (self w) then T_AWAIT_GET else T_RETURNED)
                         false]> (tasks w).
Proof.
  intros Hk Hq Hm Htxt Ht Hf.
  rewrite (listen_outbound_step_message k w msg rest Hk Hq).
  unfold on_outbound. rewrite Hm, Htxt. cbn. rewrite !Ht. cbn. rewrite Hf. cbn.
  eexists. split; [reflexivity|].
  match goal with |- context [loop_head k ?x] =>
    destruct (loop_head_fields k x) as (-> & -> & -> & -> & -> & _) end.
  by split_and!.
Qed.

(** X11.  The dispatcher pops the table entry before it reads [msg.text].
    In a reachable world, a reply object that carries the thread_id of a
    waiting call but has no [text] attribute therefore consumes the call's
    entry and leaves its waiter pending; the AttributeError is logged with
    Python's text for the class of the object, and no call frame changes.
    From then on no reply can reach that call: on every continuation it is
    still waiting, or has timed out. *)
Theorem reply_without_text_consumes_entry k w msg rest c fr :
  reachable w → tasks w !! k = Some (mkTask T_AWAIT_GET false) →
  outbound (bus (self w)) = msg :: rest →
  OutboundMessage.thread_id msg = Some (PyStr (Call.thread_id fr)) →
  OutboundMessage.text msg = None →
  calls w !! c = Some fr → Call.status fr = AWAIT_WAIT_FOR →
  table w !! Call.thread_id fr = Some c →
  ∃ w', _listen_outbound_step k w = Some w' ∧
    table w' = delete (Call.thread_id fr) (table w) ∧
    futures w' = futures w ∧ futures w' !! c = Some PENDING ∧ calls w' = calls w ∧
    log w' = log w ++
      [ERROR ("Error in HTTP outbound listener: '" +:+ OutboundMessage.class_name msg
              +:+ "' object has no attribute 'text'")] ∧
    tasks w' !! k = Some (mkTask (if _running (self w) then T_AWAIT_GET else T_RETURNED)
                            false) ∧
    ∀ evs w'', run evs w' = Some w'' → unanswerable c fr w''.
Proof.
  intros HI%reachable_Inv Hk Hq Hm Htxt Hc Hs Ht.
  pose proof (Inv_entry_pending _ _ _ _ HI Ht Hc Hs) as Hf.
  destruct (dispatch_textless k w msg _ rest c Hk Hq Hm Htxt Ht Hf)
    as (w' & Hstep & Htab & Hfut & Hcalls & Hlog & Htasks).
  assert (Inv w') as HI' by by eapply Inv_listen_outbound_step.
  exists w'. split_and!; try done.
  - by rewrite Hfut.
  - rewrite Htasks. apply list_lookup_insert_eq. by eapply lookup_lt_Some.
  - intros evs w'' Hrun. eapply unanswerable_run; [exact HI'|done|exact Hrun|].
    split; [|left; by rewrite Hcalls, Hfut].
    rewrite Htab. by rewrite lookup_delete_eq.
Qed.

(** *** The inbound side *)

Lemma fmap_set_status (cs : list Call.t) c fr s :
  cs !! c = Some fr →
  call_request <$> <[c := Call.set_status s fr]> cs = call_request <$> cs.
Proof.
  intros Hc. rewrite list_fmap_insert. apply list_insert_id.
  by rewrite list_lookup_fmap, Hc.
Qed.

Lemma step_requests ev w w' :
  step ev w = Some w' →
  (inbound (bus (self w')) = inbound (bus (self w)) ∧
   call_request <$> calls w' = call_request <$> calls w) ∨
  (∃ fr m, calls w' = calls w ++ [fr] ∧
           inbound (bus (self w')) = inbound (bus (self w)) ++ [m] ∧
           message_request m = call_request fr ∧ inbound_wf m) ∨
  (calls w' = calls w ∧
   ∃ m, inbound (bus (self w)) = m :: inbound (bus (self w'))).
Proof.
  intros Hstep. destruct ev; step_paths Hstep.
  all: try (left; split; reflexivity).
  - right. left. do 2 eexists. split_and!; [reflexivity..|]. by repeat split.
  - left. split; [done|]. cbn. by apply fmap_set_status.
  - left. destruct r as [v|[]]; cbn; (split; [done|]); by apply fmap_set_status.
  - left. rewrite self_loop_head.
    by destruct (loop_head_fields k w) as (_ & _ & _ & -> & _).
  - left. rewrite self_loop_head.
    destruct (loop_head_fields k w0) as (_ & _ & _ & -> & _).
    match goal with H : on_outbound _ _ = _ |- _ =>
      apply on_outbound_calls in H as (-> & _ & -> & _) end.
    destruct (outbound (bus (self w))); by simplify_eq.
  - left. rewrite self_loop_except.
    destruct (loop_except_fields k e w0) as (_ & _ & -> & _).
    match goal with H : on_outbound _ _ = _ |- _ =>
      apply on_outbound_calls in H as (-> & _ & -> & _) end.
    destruct (outbound (bus (self w))); by simplify_eq.
  - left. rewrite self_loop_head.
    by destruct (loop_head_fields k w) as (_ & _ & _ & -> & _).
  - right. right. split; [done|].
    destruct (inbound (bus (self w))) as [|m0 rest0]; simplify_eq. by eexists.
Qed.

Lemma inbound_matches_calls_step ev w w' :
  step ev w = Some w' → inbound_matches_calls w → inbound_matches_calls w'.
Proof.
  intros Hstep (n & Hn & Heq & Hwf).
  destruct (step_requests _ _ _ Hstep)
    as [[Hin Hcs]|[(fr & m & Hcs & Hin & Hm & Hm')|[Hcs [m Hin]]]].
  - exists n. rewrite Hin, <- Hcs in *. split_and!; try done.
    by rewrite <- (length_fmap call_request), Hcs, length_fmap.
  - exists n. rewrite Hin, Hcs, !fmap_app, length_app. cbn. split_and!.
    + lia.
    + rewrite drop_app_le by by rewrite length_fmap. by rewrite Heq, Hm.
    + apply Forall_app. split; [done|]. by apply Forall_cons.
  - rewrite Hin in Heq, Hwf. cbn in Heq.
    assert ((call_request <$> calls w) !! n = Some (message_request m)) as Hnth.
    { rewrite <- (Nat.add_0_r n), <- lookup_drop, <- Heq. done. }
    exists (S n). rewrite Hcs. split_and!.
    + apply lookup_lt_Some in Hnth. by rewrite length_fmap in Hnth.
    + rewrite (drop_S _ _ _ Hnth) in Heq. by injection Heq.
    + by apply Forall_cons in Hwf as [_ ?].
Qed.

(** X8.  The channel publishes one inbound message per call and nothing
    else: in every reachable world the inbound queue holds, in call order,
    exactly the messages of the calls made after those the consumer has
    already read, each with the id, thread_id, user id and text of its call,
    channel "http", the user id as sender name, no attachments and the user
    id as only metadata. *)
Theorem inbound_queue_mirrors_calls w :
  reachable w →
  ∃ n, n ≤ length (calls w) ∧
       message_request <$> inbound (bus (self w)) = drop n (call_request <$> calls w) ∧
       Forall inbound_wf (inbound (bus (self w))).
Proof.
  intros [evs Hrun]. change (inbound_matches_calls w).
  assert (inbound_matches_calls init) as Hinit.
  { exists 0. split_and!; [done|done|constructor]. }
  revert Hrun Hinit. generalize init. induction evs as [|ev evs IH]; intros w0; cbn.
  - by intros [= <-].
  - destruct (step ev w0) as [w1|] eqn:Hstep; [cbn|done]. intros Hrun Hm.
    eapply IH; [exact Hrun|]. by eapply inbound_matches_calls_step.
Qed.

(** *** Deadlines *)

(** X10.  [send_message] does not reject a timeout that is zero or
    negative: the call is registered and its inbound message published as
    usual, but its deadline has already passed, so the wait can be given up
    before any reply is dispatched; the call then returns the timeout notice
    and its table entry is gone. *)
Theorem nonpositive_timeout_expires_at_once text user_id timeout w :
  Qle_bool timeout 0 = true →
  ∃ w' m,
    run [EvSend text user_id (Some timeout); EvTimer (length (calls w));
         EvResume (length (calls w))] w = Some w' ∧
    Call.status <$> calls w' !! length (calls w)
      = Some (RETURN (PyStr TIMEOUT_NOTICE)) ∧
    table w' !! ("http-" +:+ user_id) = None ∧
    futures w' !! length (futures w) = Some CANCELLED ∧
    inbound (bus (self w')) = inbound (bus (self w)) ++ [m] ∧
    InboundMessage.thread_id m = "http-" +:+ user_id ∧
    InboundMessage.text m = text.
Proof.
  intros Hneg%Qle_bool_iff.
  set (w1 := send_message text user_id (Some timeout) w).
  set (c := length (calls w)).
  pose (fr := Call.mk text user_id timeout (uuid4 (uuid_draws w)) ("http-" +:+ user_id)
                (length (futures w)) (now w + timeout)%Q AWAIT_WAIT_FOR).
  assert (calls w1 !! c = Some fr) as Hc1 by (cbn; by apply list_lookup_middle).
  assert (futures w1 !! Call.response_future fr = Some PENDING) as Hf1
    by (cbn; by apply list_lookup_middle).
  assert (Qle_bool (Call.deadline fr) (now w1) = true) as Hd1
    by (apply Qle_bool_iff; cbn; lra).
  pose proof (wait_for_timeout_fires w1 c fr Hc1 eq_refl Hf1 Hd1) as Hfire.
  assert (c < length (calls w1)) as Hlt by by eapply lookup_lt_Some.
  assert (calls (with_calls (<[c := Call.set_status TIMEOUT_SCHEDULED fr]>)
                   (with_futures (<[Call.response_future fr := CANCELLED]>) w1)) !! c
          = Some (Call.set_status TIMEOUT_SCHEDULED fr)) as Hc2
    by (by apply list_lookup_insert_eq).
  pose proof (send_message_resume_timeout _ c _ Hc2 eq_refl) as Hres.
  do 2 eexists. split.
  { eapply run_cons; [reflexivity|]. eapply run_cons; [exact Hfire|].
    eapply run_cons; [exact Hres|reflexivity]. }
  subst c w1 fr. cbn. split_and!; try reflexivity.
  - rewrite list_lookup_insert_eq; [done|]. rewrite length_insert, length_app. cbn. lia.
  - apply lookup_delete_eq.
  - apply list_lookup_insert_eq. rewrite length_app. cbn. lia.
Qed.

(** X12.  In every reachable world each call has a waiter of its own: no
    two calls share a future, and there are exactly as many futures, and as
    many uuid4 draws, as calls.  Nobody but the call itself cancels its
    waiter: a call suspended in the wait has a future that is pending or
    completed with a result, never cancelled, so that no call ends with an
    exception. *)
Theorem calls_have_own_waiters w c1 c2 fr1 fr2 :
  reachable w → calls w !! c1 = Some fr1 → calls w !! c2 = Some fr2 →
  (Call.response_future fr1 = Call.response_future fr2 → c1 = c2) ∧
  length (futures w) = length (calls w) ∧ uuid_draws w = length (calls w) ∧
  match Call.status fr1 with
  | AWAIT_WAIT_FOR =>
      futures w !! Call.response_future fr1 = Some PENDING ∨
      ∃ v, futures w !! Call.response_future fr1 = Some (FINISHED v)
  | TIMEOUT_SCHEDULED | RETURN _ => is_Some (futures w !! Call.response_future fr1)
  | RAISE _ => False
  end.
Proof.
  intros HI%reachable_Inv Hc1 Hc2.
  destruct (inv_call _ HI _ _ Hc1) as (Hrf1 & _).
  destruct (inv_call _ HI _ _ Hc2) as (Hrf2 & _).
  split_and!; [congruence|apply (inv_len _ HI)|apply (inv_draws _ HI)|].
  pose proof (inv_status _ HI _ _ Hc1) as Hst. rewrite Hrf1.
  destruct (Call.status fr1); [done| | |done].
  all: apply lookup_lt_is_Some; rewrite (inv_len _ HI); by eapply lookup_lt_Some.
Qed.

End http_properties.

(** ** The claims on the sample interleavings *)

Local Abbreviation table w := (pending_responses (self w)).

Lemma sample_run_reachable evs :
  is_Some (run sample_uuid4 sample_isoformat sample_clock_ticks evs init) →
  reachable sample_uuid4 sample_isoformat sample_clock_ticks (sample_run evs).
Proof. intros [w Hw]. exists evs. unfold sample_run. by rewrite Hw. Defined.

Ltac sample_reachable :=
  apply sample_run_reachable; vm_compute; eexists; reflexivity.

(** The claim C1 as written fails: call 0 has timed out while the table
    entry under its thread_id belongs to the newer call 1, which is still
    waiting on a pending future; resuming call 0 removes that entry. *)
Lemma timed_out_call_pops_newer_entry :
  calls (sample_run two_calls_same_user) !! 0
    = Some (frame "a" "u1" 120 0 120 TIMEOUT_SCHEDULED) ∧
  calls (sample_run two_calls_same_user) !! 1
    = Some (frame "b" "u1" 120 1 120 AWAIT_WAIT_FOR) ∧
  futures (sample_run two_calls_same_user) !! 1 = Some PENDING ∧
  table (sample_run two_calls_same_user) !! "http-u1" = Some 1 ∧
  ∃ w', step sample_uuid4 sample_isoformat sample_clock_ticks (EvResume 0) (sample_run two_calls_same_user)
          = Some w' ∧
        table w' !! "http-u1" = None.
Proof.
  split_and!; [by vm_compute..|].
  eexists. split; [vm_compute; reflexivity|by vm_compute].
Qed.

Lemma send_message_table_cleanup_witness :
  (∃ w', send_message_resume 0 (sample_run two_calls_same_user) = Some w' ∧
         table w' = delete "http-u1" (table (sample_run two_calls_same_user)) ∧
         table w' !! "http-u1" = None ∧
         calls w' !! 0 = Some (frame "a" "u1" 120 0 120 (RETURN (PyStr TIMEOUT_NOTICE)))) ∧
  (table (sample_run (call_and_reply ++ [EvDispatch 0; EvResume 0; EvSend "more" "u2" None]))
     !! "http-u2" = None ∨
   ∃ c' fr', 0 < c' ∧
     calls (sample_run (call_and_reply ++ [EvDispatch 0; EvResume 0; EvSend "more" "u2" None]))
       !! c' = Some fr' ∧
     Call.thread_id fr' = "http-u2" ∧
     table (sample_run (call_and_reply ++ [EvDispatch 0; EvResume 0; EvSend "more" "u2" None]))
       !! "http-u2" = Some (Call.response_future fr')).
Proof.
  split.
  - apply (send_message_table_cleanup sample_uuid4 sample_isoformat sample_clock_ticks
             (sample_run two_calls_same_user) 0
             (frame "a" "u1" 120 0 120 TIMEOUT_SCHEDULED)).
    + sample_reachable.
    + by vm_compute.
    + reflexivity.
  - refine (proj2 (send_message_table_cleanup sample_uuid4 sample_isoformat sample_clock_ticks
             (sample_run (call_and_reply ++ [EvDispatch 0; EvResume 0; EvSend "more" "u2" None]))
             0 (frame "hi" "u2" 5 0 5 (RETURN (PyStr "hi back"))) _ _)
             (PyStr "hi back") eq_refl).
    + sample_reachable.
    + by vm_compute.
Defined.

(** The claim C2 as written fails: the call below was made with a timeout
    of one second; two seconds later no reply has been published, its future
    is pending and the timeout path is open to it.  A reply published then
    and dispatched before the call runs again is what the call returns; no
    warning is logged. *)
Lemma late_reply_is_returned :
  calls (sample_run reply_after_deadline) !! 0
    = Some (frame "hello" "u1" 1 0 1 AWAIT_WAIT_FOR) ∧
  now (sample_run reply_after_deadline) = 2%Q ∧
  futures (sample_run reply_after_deadline) !! 0 = Some PENDING ∧
  outbound (bus (self (sample_run reply_after_deadline))) = [] ∧
  is_Some (wait_for_timeout sample_clock_ticks 0 (sample_run reply_after_deadline)) ∧
  ∃ w', run sample_uuid4 sample_isoformat sample_clock_ticks
          [EvPutOutbound (OutboundMessage.make "http-u1" "late"); EvDispatch 0; EvResume 0]
          (sample_run reply_after_deadline) = Some w' ∧
        calls w' !! 0 = Some (frame "hello" "u1" 1 0 1 (RETURN (PyStr "late"))) ∧
        PyStr "late" ≠ PyStr TIMEOUT_NOTICE ∧
        log w' = log (sample_run reply_after_deadline).
Proof.
  split_and!; [by vm_compute..|vm_compute; by eexists|].
  eexists. split; [vm_compute; reflexivity|]. split_and!; by vm_compute.
Qed.

Lemma send_message_timeout_returns_notice_witness :
  ∃ w1 w3,
    wait_for_timeout sample_clock_ticks 0 (sample_run one_call_no_reply) = Some w1 ∧
    futures w1 !! 0 = Some CANCELLED ∧
    send_message_resume 0 w1 = Some w3 ∧
    calls w3 !! 0 =
      Some (frame "hello" "u1" 1 0 1
              (RETURN (PyStr "⏰ Запрос занял слишком много времени. Попробуй упростить задачу."))) ∧
    log w3 = log w1 ++ [WARNING "HTTP message timeout for user u1"] ∧
    ∀ c' fr' e, calls w3 !! c' = Some fr' → Call.status fr' ≠ RAISE e.
Proof.
  destruct (send_message_timeout_returns_notice sample_uuid4 sample_isoformat
              sample_clock_ticks
              (sample_run one_call_no_reply) 0 (frame "hello" "u1" 1 0 1 AWAIT_WAIT_FOR))
    as (w1 & Hfire & Hcan & Hrest).
  - sample_reachable.
  - by vm_compute.
  - reflexivity.
  - by vm_compute.
  - by vm_compute.
  - destruct (Hrest [] w1) as (w3 & ? & ? & ? & ?); [apply not_elem_of_nil|reflexivity|].
    by exists w1, w3.
Defined.

Lemma send_message_returns_matching_reply_witness :
  (∃ w1, _listen_outbound_step 0 (sample_run call_and_reply) = Some w1 ∧
         futures w1 !! 0 = Some (FINISHED (PyStr "hi back")) ∧
         wait_for_timeout sample_clock_ticks 0 w1 = None ∧
         ∃ w3, send_message_resume 0 w1 = Some w3 ∧
               calls w3 !! 0 = Some (frame "hi" "u2" 5 0 5 (RETURN (PyStr "hi back")))) ∧
  (∃ k msg rest,
     EvDispatch 0 = EvDispatch k ∧
     outbound (bus (self (sample_run call_and_reply))) = msg :: rest ∧
     OutboundMessage.thread_id msg = Some (PyStr "http-u2") ∧
     OutboundMessage.text msg = Some (PyStr "hi back")) ∧
  ((Call.status (frame "hi" "u2" 5 0 5 AWAIT_WAIT_FOR) = AWAIT_WAIT_FOR ∧
    futures (sample_run (call_and_reply ++ [EvDispatch 0])) !! 0
      = Some (FINISHED (PyStr "hi back"))) ∨
   (Call.status (frame "hi" "u2" 5 0 5 AWAIT_WAIT_FOR) = TIMEOUT_SCHEDULED ∧
    PyStr "hi back" = PyStr TIMEOUT_NOTICE)).
Proof.
  destruct (send_message_returns_matching_reply sample_uuid4 sample_isoformat sample_clock_ticks
              (sample_run call_and_reply) 0 (frame "hi" "u2" 5 0 5 AWAIT_WAIT_FOR))
    as (Ha & Hb & _); [by vm_compute|].
  destruct (send_message_returns_matching_reply sample_uuid4 sample_isoformat sample_clock_ticks
              (sample_run (call_and_reply ++ [EvDispatch 0])) 0
              (frame "hi" "u2" 5 0 5 AWAIT_WAIT_FOR))
    as (_ & _ & Hc); [by vm_compute|].
  split_and!.
  - destruct (Ha 0 "hi back" []) as (w1 & Hstep & Hfin & Htimer & Hrest);
      [reflexivity|by vm_compute..|].
    destruct (Hrest [] w1) as (w3 & ? & ?); [apply not_elem_of_nil|reflexivity|].
    exists w1. split_and!; try done. by exists w3.
  - apply (Hb (EvDispatch 0) (sample_run (call_and_reply ++ [EvDispatch 0]))
              (PyStr "hi back")); [sample_reachable|by vm_compute..].
  - apply (Hc (sample_run (call_and_reply ++ [EvDispatch 0; EvResume 0]))
              (PyStr "hi back")); by vm_compute.
Defined.

Lemma waiter_single_assignment_witness :
  futures (sample_run (late_reply ++ [EvDispatch 0])) !! 0 = Some CANCELLED ∧
  ∃ w1 w2,
    _listen_outbound_step 0 (sample_run two_replies) = Some w1 ∧
    _listen_outbound_step 0 w1 = Some w2 ∧
    futures w1 !! 0 = Some (FINISHED (PyStr "one")) ∧
    table w1 !! "http-u1" = None ∧
    futures w2 = futures w1 ∧ table w2 = table w1.
Proof.
  destruct (waiter_single_assignment sample_uuid4 sample_isoformat sample_clock_ticks) as [Hmono Htwo].
  split.
  - apply (Hmono (EvDispatch 0) (sample_run late_reply)); by vm_compute.
  - destruct (Htwo (sample_run two_replies) 0 "http-u1" 0 "one" "two" [])
      as (w1 & w2 & ? & ? & ? & ? & _ & ? & ? & _); [by vm_compute..|].
    by exists w1, w2.
Defined.

Lemma dispatcher_pops_and_completes_witness :
  _listen_outbound_step 0 (sample_run orphan_reply)
    = Some (loop_head 0
              (with_self (set_bus (mkBus (inbound (bus (self (sample_run orphan_reply)))) []))
                 (sample_run orphan_reply))) ∧
  _listen_outbound_step 0 (sample_run call_and_reply)
    = Some (loop_head 0
              (with_futures (<[0 := FINISHED (PyStr "hi back")]>)
                 (with_self (set_pending_responses
                               (delete "http-u2" (table (sample_run call_and_reply))))
                    (with_self (set_bus (mkBus (inbound (bus (self (sample_run call_and_reply))))
                                           []))
                       (sample_run call_and_reply))))) ∧
  _listen_outbound_step 0 (sample_run late_reply)
    = Some (loop_head 0
              (with_self (set_pending_responses
                            (delete "http-u1" (table (sample_run late_reply))))
                 (with_self (set_bus (mkBus (inbound (bus (self (sample_run late_reply)))) []))
                    (sample_run late_reply)))).
Proof.
  split_and!.
  - refine (proj1 (dispatcher_pops_and_completes 0 (sample_run orphan_reply)
                     "http-u9" "x" [] _ _) _); by vm_compute.
  - refine (proj1 (proj2 (dispatcher_pops_and_completes 0 (sample_run call_and_reply)
                            "http-u2" "hi back" [] _ _)) 0 _ _); by vm_compute.
  - refine (proj1 (proj2 (proj2 (dispatcher_pops_and_completes 0 (sample_run late_reply)
                                   "http-u1" "late" [] _ _))) 0 CANCELLED _ _ _);
      by vm_compute.
Defined.

Lemma dispatcher_crash_resistant_witness :
  _listen_outbound_step 0 (sample_run (started ++ [EvStop]))
    = Some (set_task_state 0 T_RETURNED (sample_run (started ++ [EvStop]))) ∧
  ∃ w', _listen_outbound_step 0 (sample_run bad_message) = Some w' ∧
        tasks w' = [mkTask T_AWAIT_GET false] ∧
        log w' = log (sample_run bad_message) ++
                 [ERROR "Error in HTTP outbound listener: 'str' object has no attribute 'thread_id'"] ∧
        table w' !! "http-u2" = Some 0 ∧ futures w' !! 0 = Some PENDING.
Proof.
  split.
  - apply (dispatcher_crash_resistant 0 (sample_run (started ++ [EvStop]))
             (mkTask T_AWAIT_GET true)); by vm_compute.
  - destruct (dispatcher_crash_resistant 0 (sample_run bad_message)
                (mkTask T_AWAIT_GET false)) as [_ Hmsg]; [by vm_compute..|].
    destruct (Hmsg (OutboundMessage.mk "str" None None) [])
      as (w1 & r & w' & Hon & _ & Hstep & Htasks & Hlog & _ & _ & Htable & Hfut);
      [by vm_compute..|].
    vm_compute in Hon. injection Hon as _ <-.
    exists w'. split_and!; try done.
    + by rewrite Htable.
    + rewrite Hfut; [by vm_compute|]. by intros tid [=].
Defined.

(** The claim C7 as written fails where uuid4 repeats a value: the two
    calls below, of two users, publish inbound messages with the same id. *)
Lemma repeated_uuid4_repeats_id :
  ∃ w, run colliding_uuid4 sample_isoformat sample_clock_ticks two_calls_two_users init
         = Some w ∧
       Call.thread_id <$> calls w = ["http-u1"; "http-u2"] ∧
       Call.message_id <$> calls w = [colliding_uuid4 0; colliding_uuid4 1] ∧
       InboundMessage.id <$> inbound (bus (self w))
         = ["6fa459ea-ee8a-4ca4-894e-db77e160355e";
            "6fa459ea-ee8a-4ca4-894e-db77e160355e"] ∧
       ¬ NoDup (InboundMessage.id <$> inbound (bus (self w))).
Proof.
  eexists. split; [vm_compute; reflexivity|].
  split_and!; [by vm_compute..|]. apply (bool_decide_unpack _). by vm_compute.
Qed.

Lemma send_message_identifiers_witness :
  Call.message_id <$>
    calls (send_message sample_uuid4 sample_isoformat "b" "u2" None
             (sample_run [EvSend "a" "u1" None]))
  = ["uuid-0"; "uuid-1"] ∧
  NoDup (Call.message_id <$>
           calls (send_message sample_uuid4 sample_isoformat "b" "u2" None
                    (sample_run [EvSend "a" "u1" None]))) ∧
  Call.message_id (frame "a" "u1" 120 0 120 AWAIT_WAIT_FOR) ≠ sample_uuid4 1.
Proof.
  destruct (send_message_identifiers sample_uuid4 sample_isoformat sample_clock_ticks
              "b" "u2" None (sample_run [EvSend "a" "u1" None])) as [_ Hids].
  destruct Hids as (Heq & Hnodup & Hprev); [sample_reachable|].
  split_and!.
  - rewrite Heq. by vm_compute.
  - apply (proj2 Hnodup). apply (bool_decide_unpack _). by vm_compute.
  - destruct (Hprev 0 (frame "a" "u1" 120 0 120 AWAIT_WAIT_FOR)) as [_ Hiff];
      [by vm_compute|].
    intros Hid%(proj1 Hiff). by vm_compute in Hid.
Defined.

Lemma stop_cancels_and_awaits_dispatcher_witness :
  ∃ w1, stop (sample_run (started ++ [EvSend "a" "u1" (Some 1%Q)])) = Some w1 ∧
    _running (self w1) = false ∧
    tasks w1 = [mkTask T_AWAIT_GET true] ∧
    table w1 = table (sample_run (started ++ [EvSend "a" "u1" (Some 1%Q)])) ∧
    futures w1 = [PENDING] ∧
    stop_resume 0 w1 = None ∧
    calls w1 !! 0 = Some (frame "a" "u1" 1 0 1 AWAIT_WAIT_FOR) ∧
    wait_for (frame "a" "u1" 1 0 1 AWAIT_WAIT_FOR) w1 = None.
Proof.
  destruct (stop_cancels_and_awaits_dispatcher sample_clock_ticks
              (sample_run (started ++ [EvSend "a" "u1" (Some 1%Q)])) 0
              (mkTask T_AWAIT_GET false))
    as (w1 & Hstop & Hrun & Htasks & Htable & Hfut & _ & _ & (_ & Hres & _) & _ & Hcalls);
    [by vm_compute..|].
  destruct (Hcalls 0 (frame "a" "u1" 1 0 1 AWAIT_WAIT_FOR)) as (? & ? & _);
    [by vm_compute..|].
  exists w1. rewrite Htasks, Hfut. by split_and!.
Defined.

Lemma send_message_overwrites_entry_witness :
  table (send_message sample_uuid4 sample_isoformat "b" "u1" None
           (sample_run [EvSend "a" "u1" None])) !! "http-u1" = Some 1 ∧
  size (table (send_message sample_uuid4 sample_isoformat "b" "u1" None
                 (sample_run [EvSend "a" "u1" None]))) = 1.
Proof.
  destruct (send_message_overwrites_entry sample_uuid4 sample_isoformat sample_clock_ticks
              (sample_run [EvSend "a" "u1" None]) "b" "u1" None 0)
    as (_ & Hnew & _ & _ & _ & Hsize & _); [by vm_compute|by eexists|].
  split; [exact Hnew|]. rewrite Hsize. by vm_compute.
Defined.

Lemma stop_without_start_witness :
  _task (self (sample_run [EvSend "a" "u1" None])) = None ∧
  ∃ w', stop (sample_run [EvSend "a" "u1" None]) = Some w' ∧
        stops w' = [STOP_RETURN] ∧ _running (self w') = false ∧
        table w' !! "http-u1" = Some 0.
Proof.
  destruct (stop_without_start sample_uuid4 sample_isoformat sample_clock_ticks
              [EvSend "a" "u1" None] (sample_run [EvSend "a" "u1" None]))
    as (Hnone & w' & Hstop & Hstops & Hrun & _ & _ & Htable & _).
  - apply not_elem_of_cons. split; [done|apply not_elem_of_nil].
  - by vm_compute.
  - split; [done|]. exists w'. split_and!; try done. by rewrite Htable.
Defined.

(** ** The further properties on the sample interleavings *)

Lemma start_serves_earlier_calls_witness :
  ∃ w', run sample_uuid4 sample_isoformat sample_clock_ticks
          [EvStart; EvDispatch (length (tasks (sample_run call_before_start)));
           EvDispatch (length (tasks (sample_run call_before_start))); EvResume 0]
          (sample_run call_before_start) = Some w' ∧
        calls w' !! 0 = Some (frame "hi" "u2" 5 0 5 (RETURN (PyStr "hi back"))) ∧
        _running (self w') = true.
Proof.
  destruct (start_serves_earlier_calls sample_uuid4 sample_isoformat sample_clock_ticks
              (sample_run call_before_start) 0 (frame "hi" "u2" 5 0 5 AWAIT_WAIT_FOR)
              "hi back" [])
    as (w' & Hrun & Hc & _ & Hr & _); [by vm_compute..|].
  by exists w'.
Defined.

Lemma stop_leaves_earlier_dispatcher_witness :
  ∃ w2, run sample_uuid4 sample_isoformat sample_clock_ticks [EvStart; EvStop] (sample_run started)
          = Some w2 ∧
        _running (self w2) = false ∧
        tasks w2 !! 0 = Some (mkTask T_AWAIT_GET false) ∧
        _listen_outbound_step 0 w2 = None.
Proof.
  destruct (stop_leaves_earlier_dispatcher sample_uuid4 sample_isoformat sample_clock_ticks
              (sample_run started) 0)
    as (w2 & Hrun & _ & Hr & _ & Hk0 & _ & _ & Hbus & Hidle & _); [by vm_compute|].
  exists w2. split_and!; try done. apply Hidle. rewrite Hbus. by vm_compute.
Defined.

Lemma table_entries_are_live_witness :
  ∃ fr, calls (sample_run two_calls_same_user) !! 1 = Some fr ∧
        Call.response_future fr = 1 ∧ "http-u1" = Call.thread_id fr ∧
        "http-u1" = "http-" +:+ Call.user_id fr.
Proof.
  destruct (table_entries_are_live sample_uuid4 sample_isoformat sample_clock_ticks
              (sample_run two_calls_same_user) "http-u1" 1)
    as (fr & ? & ? & ? & ? & _); [sample_reachable|by vm_compute|].
  by exists fr.
Defined.

Lemma overwritten_call_only_times_out_witness :
  unanswerable 0 (frame "a" "u1" 120 0 120 AWAIT_WAIT_FOR)
    (sample_run (reply_after_overwrite ++ [EvDispatch 0; EvResume 1])) ∧
  futures (sample_run (reply_after_overwrite ++ [EvDispatch 0; EvResume 1])) !! 0
    ≠ Some (FINISHED (PyStr "reply")).
Proof.
  destruct (overwritten_call_only_times_out sample_uuid4 sample_isoformat sample_clock_ticks
              (sample_run [EvSend "a" "u1" None; EvSend "b" "u1" None]) 0
              (frame "a" "u1" 120 0 120 AWAIT_WAIT_FOR)
              (started ++ [EvPutOutbound (OutboundMessage.make "http-u1" "reply");
                           EvDispatch 0; EvResume 1])
              (sample_run (reply_after_overwrite ++ [EvDispatch 0; EvResume 1])))
    as (Hun & Hfin & _).
  - sample_reachable.
  - by vm_compute.
  - reflexivity.
  - by vm_compute.
  - by vm_compute.
  - by vm_compute.
  - split; [exact Hun|apply Hfin].
Defined.

Lemma reply_goes_to_latest_call_witness : 0 ≤ 1.
Proof.
  apply (reply_goes_to_latest_call sample_uuid4 sample_isoformat sample_clock_ticks
           (sample_run reply_after_overwrite) (EvDispatch 0)
           (sample_run (reply_after_overwrite ++ [EvDispatch 0])) 1
           (frame "b" "u1" 120 1 120 AWAIT_WAIT_FOR) (PyStr "reply")
         ) with (fr' := frame "a" "u1" 120 0 120 AWAIT_WAIT_FOR);
    [sample_reachable|by vm_compute..].
Defined.

Lemma dispatcher_raises_only_on_malformed_witness :
  (∃ w', _listen_outbound_step 0 (sample_run late_reply) = Some w' ∧
         log w' = log (sample_run late_reply)) ∧
  ∃ w1, on_outbound (OutboundMessage.mk "str" None None)
          (with_self (set_bus (mkBus (inbound (bus (self (sample_run bad_message)))) []))
             (sample_run bad_message))
        = (w1, Raise (AttributeError "'str' object has no attribute 'thread_id'")).
Proof.
  split.
  - destruct (dispatcher_raises_only_on_malformed sample_uuid4 sample_isoformat
                sample_clock_ticks
                0 (sample_run late_reply) (OutboundMessage.make "http-u1" "late") [])
      as (w1 & r & w' & _ & Hstep & Hr & Hok);
      [sample_reachable|by vm_compute..|].
    rewrite Hok in Hr by by do 2 eexists. by exists w'.
  - destruct (dispatcher_raises_only_on_malformed sample_uuid4 sample_isoformat
                sample_clock_ticks
                0 (sample_run bad_message) (OutboundMessage.mk "str" None None) [])
      as (w1 & r & w' & Hon & _ & Hr & _);
      [sample_reachable|by vm_compute..|].
    exists w1. destruct r as [[]|e].
    + vm_compute in Hon. by injection Hon.
    + destruct Hr as [[_ ->]|[[[l [=]] _]|[_ ->]]]; [done|].
      vm_compute in Hon. by injection Hon.
Defined.

Lemma replies_of_distinct_users_witness :
  ∃ w', run sample_uuid4 sample_isoformat sample_clock_ticks
          [EvDispatch 0; EvDispatch 0; EvResume 0; EvResume 1] (sample_run two_users)
          = Some w' ∧
        calls w' !! 0 = Some (frame "x" "u1" 120 0 120 (RETURN (PyStr "for u1"))) ∧
        calls w' !! 1 = Some (frame "y" "u2" 120 1 120 (RETURN (PyStr "for u2"))).
Proof.
  destruct (replies_of_distinct_users sample_uuid4 sample_isoformat sample_clock_ticks
              (sample_run two_users) 0 0 1
              (frame "x" "u1" 120 0 120 AWAIT_WAIT_FOR)
              (frame "y" "u2" 120 1 120 AWAIT_WAIT_FOR) "for u1" "for u2" [])
    as (w' & Hrun & H1 & H2 & _).
  - sample_reachable.
  - by vm_compute.
  - by vm_compute.
  - by vm_compute.
  - reflexivity.
  - reflexivity.
  - by vm_compute.
  - by vm_compute.
  - by vm_compute.
  - by vm_compute.
  - by vm_compute.
  - by exists w'.
Defined.

Lemma inbound_queue_mirrors_calls_witness :
  ∃ n, n ≤ length (calls (sample_run consumer_read)) ∧
       message_request <$> inbound (bus (self (sample_run consumer_read)))
         = drop n (call_request <$> calls (sample_run consumer_read)) ∧
       Forall inbound_wf (inbound (bus (self (sample_run consumer_read)))).
Proof.
  apply (inbound_queue_mirrors_calls sample_uuid4 sample_isoformat sample_clock_ticks). sample_reachable.
Defined.

Lemma nonpositive_timeout_expires_at_once_witness :
  ∃ w' m,
    run sample_uuid4 sample_isoformat sample_clock_ticks
      [EvSend "now" "u1" (Some 0%Q); EvTimer (length (calls init));
       EvResume (length (calls init))] init = Some w' ∧
    Call.status <$> calls w' !! length (calls init)
      = Some (RETURN (PyStr TIMEOUT_NOTICE)) ∧
    table w' !! ("http-" +:+ "u1") = None ∧
    inbound (bus (self w')) = inbound (bus (self init)) ++ [m].
Proof.
  destruct (nonpositive_timeout_expires_at_once sample_uuid4 sample_isoformat sample_clock_ticks
              "now" "u1" 0%Q init)
    as (w' & m & ? & ? & ? & _ & ? & _); [reflexivity|].
  by exists w', m.
Defined.

Lemma reply_without_text_consumes_entry_witness :
  ∃ w', _listen_outbound_step 0 (sample_run textless_reply) = Some w' ∧
        table w' = delete "http-u2" (table (sample_run textless_reply)) ∧
        futures w' !! 0 = Some PENDING ∧
        log w' = log (sample_run textless_reply) ++
          [ERROR "Error in HTTP outbound listener: 'types.SimpleNamespace' object has no attribute 'text'"] ∧
        unanswerable 0 (frame "hi" "u2" 120 0 120 AWAIT_WAIT_FOR) w'.
Proof.
  destruct (reply_without_text_consumes_entry sample_uuid4 sample_isoformat sample_clock_ticks
              0 (sample_run textless_reply)
              (OutboundMessage.mk "types.SimpleNamespace" (Some (PyStr "http-u2")) None)
              [] 0
              (frame "hi" "u2" 120 0 120 AWAIT_WAIT_FOR))
    as (w' & Hstep & Htab & _ & Hf & _ & Hlog & _ & Hun).
  - sample_reachable.
  - by vm_compute.
  - by vm_compute.
  - reflexivity.
  - reflexivity.
  - by vm_compute.
  - reflexivity.
  - by vm_compute.
  - exists w'. split_and!; try done. by apply (Hun []).
Defined.

Lemma calls_have_own_waiters_witness :
  length (futures (sample_run two_calls_same_user)) = 2 ∧
  (futures (sample_run two_calls_same_user) !! 1 = Some PENDING ∨
   ∃ v, futures (sample_run two_calls_same_user) !! 1 = Some (FINISHED v)).
Proof.
  destruct (calls_have_own_waiters sample_uuid4 sample_isoformat sample_clock_ticks
              (sample_run two_calls_same_user) 1 0
              (frame "b" "u1" 120 1 120 AWAIT_WAIT_FOR)
              (frame "a" "u1" 120 0 120 TIMEOUT_SCHEDULED))
    as (_ & Hlen & _ & Hst); [sample_reachable|by vm_compute..|].
  split; [rewrite Hlen; by vm_compute|exact Hst].
Defined.
